(** * Investment research dashboard: a shallow embedding of [investment_app.py]

    The script is a Streamlit page: an access gate ([check_password]), a
    ticker parser, a sequential fetch loop over an external market-data
    provider, and four views that format the fetched fields.

    Conventions of the embedding.
    - Python [str] is [string]; the primitives [split], [strip] and [upper]
      are modelled on the ASCII range (for codes above 127 Python follows
      the Unicode tables, which are not modelled: such characters are kept
      as they are and are never white space here).
    - A finite Python number ([int], [float], numpy float) is an exact
      rational [Q]: binary rounding and overflow are not represented, and
      equality of numbers is [Qeq] ([==]).  The floats that are not finite
      numbers (NaN, the two infinities) are values of their own, and float
      arithmetic is [xnum] arithmetic, which produces and propagates them.
      A zero has no sign.  The prices of a history are finite numbers.
    - A Python [dict] is an association list in insertion order with
      Python's update rule (an existing key keeps its position).
    - Code that can raise returns [result]; every exception is [Raise].
    - Streamlit calls that show something are recorded as [event]s. *)

From Stdlib Require Import List String Ascii Bool Arith ZArith QArith Lia.
From Stdlib Require Import Qround Qabs Numbers.DecimalString Lqa.
Import ListNotations.

Local Close Scope Q_scope.
Local Open Scope string_scope.
Local Open Scope list_scope.
Local Open Scope nat_scope.

(** ** Python string primitives *)

Module PyStr.

(** [str.isspace] on one ASCII character: TAB, LF, VT, FF, CR, the four
    separators FS GS RS US, and the space. *)
Definition is_space (c : ascii) : bool :=
  let n := nat_of_ascii c in
  ((9 <=? n) && (n <=? 13)) || ((28 <=? n) && (n <=? 32)).

Definition upper_char (c : ascii) : ascii :=
  let n := nat_of_ascii c in
  if (97 <=? n) && (n <=? 122) then ascii_of_nat (n - 32) else c.

(** [s.upper()] *)
Fixpoint upper (s : string) : string :=
  match s with
  | EmptyString => EmptyString
  | String c r => String (upper_char c) (upper r)
  end.

(** [s.lstrip()] *)
Fixpoint lstrip (s : string) : string :=
  match s with
  | EmptyString => EmptyString
  | String c r => if is_space c then lstrip r else s
  end.

(** [s.rstrip()] *)
Fixpoint rstrip (s : string) : string :=
  match s with
  | EmptyString => EmptyString
  | String c r =>
      match rstrip r with
      | EmptyString => if is_space c then EmptyString else String c EmptyString
      | r' => String c r'
      end
  end.

(** [s.strip()] *)
Definition strip (s : string) : string := rstrip (lstrip s).

(** [s.split(sep)] for a one-character separator: never the empty list,
    the empty string splits to one empty token. *)
Fixpoint split (sep : ascii) (s : string) : list string :=
  match s with
  | EmptyString => [EmptyString]
  | String c r =>
      if Ascii.eqb c sep then EmptyString :: split sep r
      else match split sep r with
           | tok :: toks => String c tok :: toks
           | [] => [String c EmptyString]
           end
  end.

(** [sep.join(toks)] *)
Fixpoint join (sep : ascii) (toks : list string) : string :=
  match toks with
  | [] => EmptyString
  | [t] => t
  | t :: rest => (t ++ String sep (join sep rest))%string
  end.

(** Truth value of a string: non-empty. *)
Definition truthy (s : string) : bool :=
  match s with EmptyString => false | _ => true end.

Fixpoint all_chars (p : ascii -> bool) (s : string) : bool :=
  match s with
  | EmptyString => true
  | String c r => p c && all_chars p r
  end.

(** No occurrence of the character [sep]. *)
Definition free (sep : ascii) (s : string) : bool :=
  all_chars (fun c => negb (Ascii.eqb c sep)) s.

Definition is_lower (c : ascii) : bool :=
  let n := nat_of_ascii c in (97 <=? n) && (n <=? 122).

Definition is_digit (c : ascii) : bool :=
  let n := nat_of_ascii c in (48 <=? n) && (n <=? 57).

Definition first_char (s : string) : option ascii :=
  match s with EmptyString => None | String c _ => Some c end.

Fixpoint last_char (s : string) : option ascii :=
  match s with
  | EmptyString => None
  | String c EmptyString => Some c
  | String _ r => last_char r
  end.

End PyStr.

(** ** Python values, dictionaries and exceptions *)

Inductive result (A : Type) : Type :=
| Ok (a : A)
| Raise.
Arguments Ok {A} & a.
Arguments Raise {A}.

Definition bind {A B : Type} (r : result A) (k : A -> result B) : result B :=
  match r with
  | Ok a => k a
  | Raise => Raise
  end.

Notation "x <- r ;; k" := (bind r (fun x => k))
  (at level 61, r at next level, right associativity).

(** A float that is not a finite number. *)
Inductive nonfinite : Type :=
| PosInf
| NegInf
| NaN.

(** A float: a finite number or not. *)
Inductive xnum : Type :=
| Fin (q : Q)
| NonFin (x : nonfinite).

Coercion Fin : Q >-> xnum.

(** The scalars found in a quote-info mapping.  [VNum] is a finite number;
    [bool] is a subclass of [int] in Python and is covered by it. *)
Inductive value : Type :=
| VNone
| VNum (q : Q)
| VStr (s : string)
| VNonFinite (x : nonfinite).

(** [isinstance(v, (int, float))] *)
Definition is_number (v : value) : bool :=
  match v with VNum _ | VNonFinite _ => true | _ => false end.

(** A finite number. *)
Definition is_finite (v : value) : bool :=
  match v with VNum _ => true | _ => false end.

(** [isinstance(v, str)] *)
Definition is_string (v : value) : bool :=
  match v with VStr _ => true | _ => false end.

(** [bool(v)]: of the numbers only zero is false. *)
Definition truthy (v : value) : bool :=
  match v with
  | VNone => false
  | VNum q => negb (Qeq_bool q 0%Q)
  | VStr s => PyStr.truthy s
  | VNonFinite _ => true
  end.

(** A numeric operand: arithmetic and the [f] format raise on anything
    else. *)
Definition as_num (v : value) : result xnum :=
  match v with
  | VNum q => Ok (Fin q)
  | VNonFinite x => Ok (NonFin x)
  | _ => Raise
  end.

Definition negate (x : nonfinite) : nonfinite :=
  match x with
  | PosInf => NegInf
  | NegInf => PosInf
  | NaN => NaN
  end.

(** Float subtraction. *)
Definition xsub (a b : xnum) : xnum :=
  match a, b with
  | Fin p, Fin q => Fin (p - q)
  | NonFin NaN, _ | _, NonFin NaN => NonFin NaN
  | NonFin PosInf, NonFin PosInf | NonFin NegInf, NonFin NegInf => NonFin NaN
  | NonFin x, _ => NonFin x
  | Fin _, NonFin y => NonFin (negate y)
  end.

(** An infinity times a finite factor. *)
Definition scale_inf (x : nonfinite) (q : Q) : nonfinite :=
  if Qeq_bool q 0 then NaN
  else if Qle_bool 0 q then x else negate x.

(** Float multiplication. *)
Definition xmul (a b : xnum) : xnum :=
  match a, b with
  | Fin p, Fin q => Fin (p * q)
  | NonFin x, Fin q | Fin q, NonFin x => NonFin (scale_inf x q)
  | NonFin NaN, NonFin _ | NonFin _, NonFin NaN => NonFin NaN
  | NonFin PosInf, NonFin y => NonFin y
  | NonFin NegInf, NonFin y => NonFin (negate y)
  end.

(** Float division as numpy does it: a zero divisor gives an infinity of
    the sign of the dividend, or NaN for [0 / 0], and does not raise.  (A
    Python [float] raises [ZeroDivisionError] instead; the one division of
    Python floats in the script is guarded by [previous_close > 0].) *)
Definition xdiv (a b : xnum) : xnum :=
  match a, b with
  | Fin p, Fin q =>
      if Qeq_bool q 0 then
        if Qeq_bool p 0 then NonFin NaN
        else if Qle_bool 0 p then NonFin PosInf else NonFin NegInf
      else Fin (p / q)
  | NonFin NaN, _ | _, NonFin NaN => NonFin NaN
  | NonFin _, NonFin _ => NonFin NaN
  | NonFin x, Fin q => if Qle_bool 0 q then NonFin x else NonFin (negate x)
  | Fin _, NonFin _ => Fin 0
  end.

(** [x > c] and [x < c] on floats: every comparison with NaN is false. *)
Definition xgtb (x : xnum) (c : Q) : bool :=
  match x with
  | Fin q => negb (Qle_bool q c)
  | NonFin PosInf => true
  | NonFin _ => false
  end.

Definition xltb (x : xnum) (c : Q) : bool :=
  match x with
  | Fin q => negb (Qle_bool c q)
  | NonFin NegInf => true
  | NonFin _ => false
  end.

(** [v > c] and [v < c] for a numeric constant [c]: ordering a string or
    [None] against a number raises [TypeError]. *)
Definition py_gt (v : value) (c : Q) : result bool :=
  x <- as_num v ;; Ok (xgtb x c).

Definition py_lt (v : value) (c : Q) : result bool :=
  x <- as_num v ;; Ok (xltb x c).

(** [v == 0]: never raises, false for a value that is not a number. *)
Definition py_eq_zero (v : value) : bool :=
  match v with
  | VNum q => Qeq_bool q 0%Q
  | _ => false
  end.

Section Dict.
Context {V : Type}.

Definition dict := list (string * V).

Fixpoint dict_lookup (d : dict) (k : string) : option V :=
  match d with
  | [] => None
  | (k', v) :: rest => if String.eqb k k' then Some v else dict_lookup rest k
  end.

(** [d.get(k, default)] *)
Definition dict_get (d : dict) (k : string) (default : V) : V :=
  match dict_lookup d k with
  | Some v => v
  | None => default
  end.

(** [d[k] = v] *)
Fixpoint dict_set (d : dict) (k : string) (v : V) : dict :=
  match d with
  | [] => [(k, v)]
  | (k', v') :: rest =>
      if String.eqb k k' then (k', v) :: rest else (k', v') :: dict_set rest k v
  end.

(** [bool(d)]: a dictionary is true when it is not empty. *)
Definition dict_truthy (d : dict) : bool :=
  match d with [] => false | _ => true end.

Definition dict_keys (d : dict) : list string := map fst d.

End Dict.
Arguments dict V : clear implicits.

(** Boolean order on rationals. *)
Definition Qgtb (a b : Q) : bool := negb (Qle_bool a b).
Definition Qltb (a b : Q) : bool := negb (Qle_bool b a).

(** ** Streamlit: session state and what the page shows *)

Record session : Type := mkSession {
  password_correct : option bool;
  analyze : option bool;
  st_tickers : option (list string);
  st_period : option string
}.

Definition fresh_session : session := mkSession None None None None.

Definition set_password_correct (st : session) (b : bool) : session :=
  mkSession (Some b) (analyze st) (st_tickers st) (st_period st).

Inductive event : Type :=
| EvTitle (s : string)
| EvMarkdown (s : string)
| EvTextInput (label : string)
| EvError (s : string)
| EvWarning (s : string)
| EvFetchWarning (ticker : string)   (* "Could not fetch data for T: <exception text>" *)
| EvStatus (s : string)
| EvProgress (done total : nat)
| EvSleep (seconds : nat).

(** ** Access gate: [check_password] *)

Definition CORRECT_PASSWORD : string := "Invest2026".

(** How a call of [check_password] ends: it returns, or [st.rerun()]
    abandons the script run and starts it again. *)
Inductive gate_outcome : Type :=
| Returned (b : bool)
| Rerun.

Definition login_prompt : list event :=
  [ EvTitle "🔒 Investment Research Dashboard";
    EvMarkdown "Please enter the password to access the dashboard";
    EvTextInput "Password:" ].

(** [password] is the content of the text input, [login] whether the Login
    button was pressed in this script run. *)
Definition check_password (st : session) (password : string) (login : bool)
  : gate_outcome * session * list event :=
  let st1 := match password_correct st with
             | None => set_password_correct st false
             | Some _ => st
             end in
  match password_correct st1 with
  | Some true => (Returned true, st1, [])
  | _ =>
      if login then
        if String.eqb password CORRECT_PASSWORD
        then (Rerun, set_password_correct st1 true, login_prompt)
        else (Returned false, st1, login_prompt ++ [EvError "😕 Incorrect password"])
      else (Returned false, st1, login_prompt)
  end.

(** The top of the script, [if not check_password(): st.stop()], followed
    through reruns: a rerun starts the script again on the updated session
    with no button pressed.  The answer is whether the page below the gate
    is reached. *)
Fixpoint access_gate (fuel : nat) (st : session) (password : string)
  (login : bool) : option (bool * session * list event) :=
  match check_password st password login with
  | (Returned b, st', ev) => Some (b, st', ev)
  | (Rerun, st', _) =>
      match fuel with
      | O => None
      | S fuel' => access_gate fuel' st' password false
      end
  end.

(** Interactions of one session with the gate, from first to last; the
    answers are collected in the same order. *)
Fixpoint gate_session (st : session) (inputs : list (string * bool))
  : list bool * session :=
  match inputs with
  | [] => ([], st)
  | (pw, login) :: rest =>
      match access_gate 1 st pw login with
      | Some (b, st', _) =>
          let '(bs, st'') := gate_session st' rest in (b :: bs, st'')
      | None => ([], st)
      end
  end.

(** ** Input collector *)

(** [[t.strip().upper() for t in ticker_input.split(",") if t.strip()]] *)
Definition tickers (ticker_input : string) : list string :=
  flat_map
    (fun t => if PyStr.truthy (PyStr.strip t)
              then [PyStr.upper (PyStr.strip t)] else [])
    (PyStr.split "," ticker_input).

Definition period_map : dict string :=
  [ ("1 Year", "1y"); ("2 Years", "2y"); ("3 Years", "3y");
    ("5 Years", "5y"); ("Year-to-Date", "ytd") ].

(** [period_map[time_period]]: a missing key raises [KeyError]. *)
Definition selected_period (time_period : string) : result string :=
  match dict_lookup period_map time_period with
  | Some p => Ok p
  | None => Raise
  end.

(** The "Analyze Stocks" button. *)
Definition analyze_button (st : session) (tks : list string) (period : string)
  : session * list event :=
  match tks with
  | [] => (st, [EvError "Please enter at least one stock ticker"])
  | _ => (mkSession (password_correct st) (Some true) (Some tks) (Some period), [])
  end.

(** ** Market data fetcher *)

(** One row of the price history. *)
Record bar : Type := mkBar {
  bar_date : Z;
  bar_open : Q;
  bar_high : Q;
  bar_low : Q;
  bar_close : Q;
  bar_volume : Q
}.

(** [history['Close']] *)
Definition closes (history : list bar) : list Q := map bar_close history.

(** A financial statement, passed through without being read. *)
Definition frame : Type := list (string * list value).

(** What the provider answers for one [yf.Ticker]: each attribute is read
    separately and each may raise. *)
Record response : Type := mkResponse {
  r_info : result (dict value);
  r_history : result (list bar);
  r_financials : result frame;
  r_balance_sheet : result frame
}.

(** The entry stored in [stock_data]. *)
Record snapshot : Type := mkSnapshot {
  ticker_obj : string;
  info : dict value;
  history : list bar;
  financials : frame;
  balance_sheet : frame
}.

(** [str(n)] for a natural number. *)
Definition str_nat (n : nat) : string := NilZero.string_of_uint (Nat.to_uint n).

Definition status_text (idx total : nat) (ticker : string) : event :=
  EvStatus ("Fetching data for " ++ ticker ++ "... ("
            ++ str_nat (idx + 1) ++ "/" ++ str_nat total ++ ")")%string.

(** The body of the [try]: the snapshot to store, or the warning shown.
    The dictionary literal is built before it is assigned, so an exception
    in [stock.financials] or [stock.balance_sheet] stores nothing. *)
Definition fetch_symbol (ticker : string) (r : response)
  : option snapshot * list event :=
  match r_info r with
  | Raise => (None, [EvFetchWarning ticker])
  | Ok inf =>
      match r_history r with
      | Raise => (None, [EvFetchWarning ticker])
      | Ok hist =>
          if (0 <? List.length hist) && dict_truthy inf then
            match r_financials r with
            | Raise => (None, [EvFetchWarning ticker])
            | Ok fin =>
                match r_balance_sheet r with
                | Raise => (None, [EvFetchWarning ticker])
                | Ok bs => (Some (mkSnapshot ticker inf hist fin bs), [])
                end
            end
          else (None, [EvWarning ("No data available for " ++ ticker)%string])
      end
  end.

Definition is_error (e : event) : bool :=
  match e with EvError _ => true | _ => false end.

Definition total_failure_message : list event :=
  [ EvError "⚠️ Could not fetch data for any stocks. This might be due to:";
    EvMarkdown "
        - **Rate limiting** - Yahoo Finance limits requests. Wait 5-10 minutes and try again.
        - **Invalid ticker symbols** - Make sure you're using correct symbols (e.g., AAPL, MSFT)
        - **Network issues** - Check your internet connection
        
        Try again in a few minutes with fewer stocks (1-3 tickers).
        " ].

(** How the main content ends after the fetch loop: [st.stop()] on the
    total-failure branch, or the four tabs are rendered from [stock_data]. *)
Inductive run_outcome : Type :=
| Stopped
| Rendered (stock_data : dict snapshot).

Section Fetcher.

(** The provider: the answer to the [idx]-th request of a run, for a
    ticker and a period code. *)
Variable provider : nat -> string -> string -> response.
Variable period : string.

(** [for idx, ticker in enumerate(tickers)], from position [idx] on. *)
Fixpoint fetch_loop (idx total : nat) (tks : list string)
  (stock_data : dict snapshot) : dict snapshot * list event :=
  match tks with
  | [] => (stock_data, [])
  | ticker :: rest =>
      let '(got, warned) := fetch_symbol ticker (provider idx ticker period) in
      let stock_data' := match got with
                         | Some snap => dict_set stock_data ticker snap
                         | None => stock_data
                         end in
      let '(final, later) := fetch_loop (S idx) total rest stock_data' in
      (final,
       status_text idx total ticker :: warned
         ++ [EvProgress (S idx) total; EvSleep 1] ++ later)
  end.

(** [stock_data = {}] and the loop over all the tickers. *)
Definition fetch_all (tks : list string) : dict snapshot * list event :=
  fetch_loop 0 (List.length tks) tks [].

(** The main content up to the tabs. *)
Definition run_analysis (tks : list string) : run_outcome * list event :=
  let '(stock_data, ev) := fetch_all tks in
  if List.length stock_data =? 0
  then (Stopped, ev ++ total_failure_message)
  else (Rendered stock_data, ev).

End Fetcher.

(** The main content of the page: the analysis runs on the request kept in
    the session once the "Analyze Stocks" button has stored one; before
    that the welcome screen is shown ([None]). *)
Definition main_content (provider : nat -> string -> string -> response)
  (st : session) : option (run_outcome * list event) :=
  match analyze st, st_tickers st, st_period st with
  | Some true, Some tks, Some period => Some (run_analysis provider period tks)
  | _, _, _ => None
  end.

(** ** Python's fixed-point format specifications

    [format(x, '.2f')], [format(x, ',.0f')] and the like on an exact
    rational: the value is rounded to [prec] decimals, ties to even, the
    sign is kept for every negative input, and [','] groups the integer
    digits by three. *)

Module Fmt.

Definition round_half_even (x : Q) : Z :=
  let n := Qnum x in
  let d := Zpos (Qden x) in
  let q := (n / d)%Z in
  let r := (n mod d)%Z in
  if (2 * r <? d)%Z then q
  else if (d <? 2 * r)%Z then (q + 1)%Z
  else if Z.even q then q else (q + 1)%Z.

(** [round(|x| * 10^prec)] *)
Definition scaled (prec : nat) (x : Q) : Z :=
  round_half_even (Qabs x * inject_Z (10 ^ Z.of_nat prec))%Q.

Definition digit_char (d : Z) : ascii := ascii_of_nat (48 + Z.to_nat d).

(** The [width] lowest decimal digits of [m], highest first. *)
Fixpoint fixed_digits (width : nat) (m : Z) : string :=
  match width with
  | O => EmptyString
  | S w => (fixed_digits w (m / 10) ++ String (digit_char (m mod 10)) EmptyString)%string
  end.

(** The decimal digits of a natural number, without leading zeros. *)
Definition int_digits (m : Z) : string :=
  NilZero.string_of_uint (N.to_uint (Z.to_N m)).

(** The [','] option: a comma before every group of three digits counted
    from the right. *)
Fixpoint group3 (s : string) : string :=
  match s with
  | EmptyString => EmptyString
  | String d r =>
      String d (if (0 <? String.length r) && (String.length r mod 3 =? 0)
                then String "," (group3 r) else group3 r)
  end.

Definition format_f (grouped : bool) (prec : nat) (x : Q) : string :=
  let m := scaled prec x in
  let ip := int_digits (m / 10 ^ Z.of_nat prec) in
  ((if Qltb x 0 then "-" else "")
   ++ (if grouped then group3 ip else ip)
   ++ (match prec with
       | O => ""
       | S _ => String "." (fixed_digits prec m)
       end))%string.

(** What every fixed-point format writes for a float that is not a finite
    number, whatever the precision and the grouping. *)
Definition nonfinite_text (x : nonfinite) : string :=
  match x with
  | PosInf => "inf"
  | NegInf => "-inf"
  | NaN => "nan"
  end.

Definition format_num (grouped : bool) (prec : nat) (x : xnum) : string :=
  match x with
  | Fin q => format_f grouped prec q
  | NonFin y => nonfinite_text y
  end.

(** [f"${x:.2f}"] *)
Definition dollars_2f (x : xnum) : string := ("$" ++ format_num false 2 x)%string.

(** [f"${x:,.0f}"] *)
Definition dollars_comma_0f (x : xnum) : string := ("$" ++ format_num true 0 x)%string.

(** [f"{x:.2f}%"] *)
Definition percent_2f (x : xnum) : string := (format_num false 2 x ++ "%")%string.

(** [f"{x:.2f}"] *)
Definition plain_2f (x : xnum) : string := format_num false 2 x.

End Fmt.
(** ** Tab 1: overview cards *)

Local Open Scope Q_scope.

(** [info.get('currentPrice', 0)], replaced by the last close when it is
    zero and there is a history. *)
Definition current_price (inf : dict value) (hist : list bar) : value :=
  let cp := dict_get inf "currentPrice" (VNum 0) in
  if py_eq_zero cp && (0 <? List.length hist)%nat
  then VNum (last (closes hist) 0)
  else cp.

Definition previous_close (inf : dict value) : value :=
  dict_get inf "previousClose" (VNum 0).

(** [change = current_price - previous_close] and
    [change_pct = (change / previous_close * 100) if previous_close > 0 else 0];
    the subtraction raises when an operand is not a number. *)
Definition change_pct (inf : dict value) (hist : list bar) : result xnum :=
  cp <- as_num (current_price inf hist) ;;
  pc <- as_num (previous_close inf) ;;
  let change := xsub cp pc in
  Ok (if xgtb pc 0 then xmul (xdiv change pc) 100 else Fin 0).

(** The fields of one card.  A [string] field went through a format
    specification; a [value] field is interpolated as it is (Python's
    [str]). *)
Record card : Type := mkCard {
  card_subheader : string;
  card_label : value;
  card_value : string;
  card_delta : string;
  card_market_cap : string;
  card_pe : value;
  card_dividend_yield : string;
  card_52w_high : value;
  card_52w_low : value;
  card_sector : value
}.

Definition card_value_of (inf : dict value) (hist : list bar) : result string :=
  cp <- as_num (current_price inf hist) ;; Ok (Fmt.dollars_2f cp).

Definition card_delta_of (inf : dict value) (hist : list bar) : result string :=
  pct <- change_pct inf hist ;; Ok (Fmt.percent_2f pct).

(** [f"${info.get('marketCap', 0):,.0f}"] *)
Definition card_market_cap_of (inf : dict value) : result string :=
  mc <- as_num (dict_get inf "marketCap" (VNum 0)) ;; Ok (Fmt.dollars_comma_0f mc).

(** [info.get('trailingPE', 'N/A')], no format specification *)
Definition card_pe_of (inf : dict value) : value :=
  dict_get inf "trailingPE" (VStr "N/A").

(** [f"{info.get('dividendYield', 0)*100:.2f}%"] *)
Definition card_dividend_yield_of (inf : dict value) : result string :=
  dy <- as_num (dict_get inf "dividendYield" (VNum 0)) ;;
  Ok (Fmt.percent_2f (xmul dy 100)).

Definition card_52w_high_of (inf : dict value) : value :=
  dict_get inf "fiftyTwoWeekHigh" (VStr "N/A").

Definition card_52w_low_of (inf : dict value) : value :=
  dict_get inf "fiftyTwoWeekLow" (VStr "N/A").

Definition card_sector_of (inf : dict value) : value :=
  dict_get inf "sector" (VStr "N/A").

(** [st.metric(label=info.get('shortName', ticker), ...)]: Streamlit
    accepts a label only when it is a [str] and raises [TypeError] on
    anything else (the behaviour of the library, which is not part of the
    script). *)
Definition metric_label (inf : dict value) (ticker : string) : result value :=
  match dict_get inf "shortName" (VStr ticker) with
  | VStr s => Ok (VStr s)
  | _ => Raise
  end.

Definition overview_card (ticker : string) (snap : snapshot) : result card :=
  let inf := info snap in
  let hist := history snap in
  value_s <- card_value_of inf hist ;;
  delta_s <- card_delta_of inf hist ;;
  label <- metric_label inf ticker ;;
  cap_s <- card_market_cap_of inf ;;
  yield_s <- card_dividend_yield_of inf ;;
  Ok (mkCard ticker label value_s delta_s
        cap_s (card_pe_of inf) yield_s
        (card_52w_high_of inf) (card_52w_low_of inf) (card_sector_of inf)).

(** A loop over [stock_data.items()] whose body may raise. *)
Fixpoint for_items {A B : Type} (f : string -> A -> result B)
  (d : dict A) : result (list B) :=
  match d with
  | [] => Ok []
  | (k, a) :: rest =>
      b <- f k a ;; bs <- for_items f rest ;; Ok (b :: bs)
  end.

Definition overview (stock_data : dict snapshot) : result (list card) :=
  for_items overview_card stock_data.

(** ** Tab 2: price chart and performance summary *)

(** One line of the chart per symbol with a non-empty history. *)
Definition price_chart (stock_data : dict snapshot)
  : list (string * list Z * list Q) :=
  flat_map
    (fun '(ticker, snap) =>
       if (0 <? List.length (history snap))%nat
       then [(ticker, map bar_date (history snap), closes (history snap))]
       else [])
    stock_data.

(** [history['Close'].iloc[0]] and [history['Close'].iloc[-1]] *)
Definition start_price (hist : list bar) : Q := hd 0 (closes hist).
Definition end_price (hist : list bar) : Q := last (closes hist) 0.

(** [((end_price - start_price) / start_price) * 100] on numpy floats: a
    zero start price gives an infinity or NaN, not an exception. *)
Definition total_return (hist : list bar) : xnum :=
  xmul (xdiv (xsub (end_price hist) (start_price hist)) (start_price hist)) 100.

Definition Qsum (xs : list Q) : Q := fold_right Qplus 0 xs.

Definition mean (xs : list Q) : Q := Qsum xs / inject_Z (Z.of_nat (List.length xs)).

Definition sum_sq_dev (xs : list Q) : Q :=
  Qsum (map (fun x => (x - mean xs) * (x - mean xs)) xs).

(** The variance pandas computes for [Series.var(ddof)]: the squared
    deviations from the mean are divided by [n - ddof]. *)
Definition variance (ddof : nat) (xs : list Q) : Q :=
  sum_sq_dev xs / inject_Z (Z.of_nat (List.length xs) - Z.of_nat ddof).

Record perf_row : Type := mkPerfRow {
  perf_ticker : string;
  perf_start_price : string;
  perf_current_price : string;
  perf_total_return : string;
  perf_volatility : string
}.

Section Performance.

(** The square root of the floating-point library, left abstract. *)
Variable sqrt : Q -> Q.

(** [Series.std()]: pandas' default is [ddof=1]. *)
Definition std (xs : list Q) : Q := sqrt (variance 1 xs).

(** The body of the performance loop for one symbol: a row only when
    [len(history) > 1]. *)
Definition perf_entry (ticker : string) (hist : list bar) : option perf_row :=
  if (1 <? List.length hist)%nat then
    Some (mkPerfRow ticker
            (Fmt.dollars_2f (start_price hist))
            (Fmt.dollars_2f (end_price hist))
            (Fmt.percent_2f (total_return hist))
            (Fmt.plain_2f (std (closes hist))))
  else None.

Definition perf_data (stock_data : dict snapshot) : list perf_row :=
  flat_map
    (fun '(ticker, snap) =>
       match perf_entry ticker (history snap) with
       | Some row => [row]
       | None => []
       end)
    stock_data.

End Performance.

(** ** Tab 3: financial metrics *)

Record financial_row : Type := mkFinancialRow {
  fin_ticker : string;
  fin_revenue : string;
  fin_net_income : string;
  fin_operating_margin : string;
  fin_profit_margin : string;
  fin_roe : string;
  fin_debt_equity : string;
  fin_current_ratio : string;
  fin_free_cash_flow : string
}.

(** [f"${info.get(key, 0):,.0f}"] *)
Definition fin_dollars (inf : dict value) (key : string) : result string :=
  x <- as_num (dict_get inf key (VNum 0)) ;; Ok (Fmt.dollars_comma_0f x).

(** [f"{info.get(key, 0)*100:.2f}%"] *)
Definition fin_percent (inf : dict value) (key : string) : result string :=
  x <- as_num (dict_get inf key (VNum 0)) ;; Ok (Fmt.percent_2f (xmul x 100)).

(** [f"{info.get(key, 0):.2f}"] *)
Definition fin_ratio (inf : dict value) (key : string) : result string :=
  x <- as_num (dict_get inf key (VNum 0)) ;; Ok (Fmt.plain_2f x).

Definition financial_entry (ticker : string) (snap : snapshot)
  : result financial_row :=
  let inf := info snap in
  revenue <- fin_dollars inf "totalRevenue" ;;
  net_income <- fin_dollars inf "netIncomeToCommon" ;;
  operating_margin <- fin_percent inf "operatingMargins" ;;
  profit_margin <- fin_percent inf "profitMargins" ;;
  roe <- fin_percent inf "returnOnEquity" ;;
  debt_equity <- fin_ratio inf "debtToEquity" ;;
  current_ratio <- fin_ratio inf "currentRatio" ;;
  free_cash_flow <- fin_dollars inf "freeCashflow" ;;
  Ok (mkFinancialRow ticker revenue net_income operating_margin profit_margin
        roe debt_equity current_ratio free_cash_flow).

Definition financial_data (stock_data : dict snapshot)
  : result (list financial_row) :=
  for_items financial_entry stock_data.

Definition revenue_data (stock_data : dict snapshot) : list (string * value) :=
  map (fun '(ticker, snap) => (ticker, dict_get (info snap) "totalRevenue" (VNum 0)))
      stock_data.

(** ** Tab 4: side-by-side comparison *)

Definition comparison_metrics : list string :=
  [ "currentPrice"; "marketCap"; "trailingPE"; "forwardPE"; "priceToBook";
    "dividendYield"; "beta"; "fiftyTwoWeekHigh"; "fiftyTwoWeekLow";
    "averageVolume" ]%string.

(** The [if]/[elif] chain on [value = info.get(metric, 'N/A')]: every
    formatting branch asks [isinstance(value, (int, float))] first, the
    last branch stores the value unchanged. *)
Definition format_metric (metric : string) (v : value) : value :=
  match as_num v with
  | Ok x =>
      if String.eqb metric "marketCap" then VStr (Fmt.dollars_comma_0f x)
      else if String.eqb metric "dividendYield" then VStr (Fmt.percent_2f (xmul x 100))
      else VStr (Fmt.plain_2f x)
  | Raise => v
  end.

Definition metric_cell (inf : dict value) (metric : string) : value :=
  format_metric metric (dict_get inf metric (VStr "N/A")).

Definition ticker_metrics (inf : dict value) : dict value :=
  fold_left (fun tm metric => dict_set tm metric (metric_cell inf metric))
            comparison_metrics [].

Definition comparison_data (stock_data : dict snapshot) : dict (dict value) :=
  fold_left (fun cd '(ticker, snap) => dict_set cd ticker (ticker_metrics (info snap)))
            stock_data [].

(** [pe and pe > 0 and pe < 100], with Python's short-circuit [and]. *)
Definition pe_in_chart (pe : value) : result bool :=
  if truthy pe then
    positive <- py_gt pe 0 ;;
    if positive then py_lt pe 100 else Ok false
  else Ok false.

Fixpoint pe_data (stock_data : dict snapshot) : result (list (string * value)) :=
  match stock_data with
  | [] => Ok []
  | (ticker, snap) :: rest =>
      let pe := dict_get (info snap) "trailingPE" VNone in
      keep <- pe_in_chart pe ;;
      rows <- pe_data rest ;;
      Ok (if keep then (ticker, pe) :: rows else rows)
  end.

Local Close Scope Q_scope.

(** ** Vocabulary of the specification

    The words of the specification that the theorems below are stated with,
    as decidable predicates on the produced text. *)

Module Spec.

(** "Splits on commas, trims whitespace, upper-cases each token, drops
    empty tokens": stage by stage. *)
Definition parseRequest (rawTickerText : string) : list string :=
  map PyStr.upper
    (filter PyStr.truthy (map PyStr.strip (PyStr.split "," rawTickerText))).

Definition all_digits (s : string) : bool := PyStr.all_chars PyStr.is_digit s.

Definition comma_free (s : string) : bool := PyStr.free "," s.

(** No white space at either end. *)
Definition trimmed (s : string) : bool :=
  match PyStr.first_char s, PyStr.last_char s with
  | Some a, Some b => negb (PyStr.is_space a) && negb (PyStr.is_space b)
  | _, _ => true
  end.

Definition upper_cased (s : string) : bool :=
  PyStr.all_chars (fun c => negb (PyStr.is_lower c)) s.

(** The characters of a written number. *)
Definition number_char (c : ascii) : bool :=
  PyStr.is_digit c || Ascii.eqb c "-" || Ascii.eqb c "," || Ascii.eqb c ".".

Definition digit_or_comma (c : ascii) : bool :=
  PyStr.is_digit c || Ascii.eqb c ",".

(** Digits in groups separated by commas: one to three digits, then groups
    of exactly three. *)
Definition thousands_separated (s : string) : bool :=
  match PyStr.split "," s with
  | first :: groups =>
      all_digits first && (1 <=? String.length first) && (String.length first <=? 3)
      && forallb (fun g => all_digits g && (String.length g =? 3)) groups
  | [] => false
  end.

Definition plain_digits (s : string) : bool :=
  all_digits s && (1 <=? String.length s).

Definition unsigned (s : string) : string :=
  match s with
  | String "-" r => r
  | _ => s
  end.

(** A number written with exactly [prec] decimals, its integer part
    thousands-separated or not. *)
Definition fixed_decimal (separated : bool) (prec : nat) (s : string) : bool :=
  let int_ok := if separated then thousands_separated else plain_digits in
  match PyStr.split "." (unsigned s) with
  | [ip] => (prec =? 0) && int_ok ip
  | [ip; fp] => (1 <=? prec) && int_ok ip && all_digits fp && (String.length fp =? prec)
  | _ => false
  end.

(** "a fixed 2-decimal, thousands-separated currency representation" *)
Definition currency_2dp (s : string) : bool :=
  match s with
  | String "$" r => fixed_decimal true 2 r
  | _ => false
  end.

(** "2-decimal with a trailing %" *)
Definition percent_2dp (s : string) : bool :=
  match PyStr.split "%" s with
  | [num; EmptyString] => fixed_decimal false 2 num
  | _ => false
  end.

(** "plain 2-decimal numbers" *)
Definition ratio_2dp (s : string) : bool := fixed_decimal false 2 s.

(** What the code writes for money that is not the current price: a dollar
    sign, whole units, thousands-separated. *)
Definition currency_0dp (s : string) : bool :=
  match s with
  | String "$" r => fixed_decimal true 0 r
  | _ => false
  end.

(** What the code writes for the current price: a dollar sign and two
    decimals, the integer digits not separated. *)
Definition currency_2dp_unseparated (s : string) : bool :=
  match s with
  | String "$" r => fixed_decimal false 2 r
  | _ => false
  end.

(** "A symbol whose history is empty or whose quote-info mapping is empty
    (or whose fetch raised an exception)". *)
Definition fetch_failed (r : response) : Prop :=
  r_info r = Raise \/ r_history r = Raise
  \/ r_info r = Ok [] \/ r_history r = Ok []
  \/ r_financials r = Raise \/ r_balance_sheet r = Raise.

(** "Both a non-empty priceHistory and a non-empty quoteInfo". *)
Definition complete (snap : snapshot) : Prop :=
  history snap <> [] /\ info snap <> [].

(** The population variance, divisor [n]. *)
Definition population_variance (xs : list Q) : Q := variance 0 xs.

(** The sample variance, divisor [n - 1]. *)
Definition sample_variance (xs : list Q) : Q :=
  (sum_sq_dev xs / inject_Z (Z.of_nat (List.length xs) - 1))%Q.

End Spec.

(** ** Further parts of the page *)

(** The options of the period [selectbox]. *)
Definition time_period_options : list string :=
  [ "1 Year"; "2 Years"; "3 Years"; "5 Years"; "Year-to-Date" ].

(** The column labels assigned to the comparison table. *)
Definition comparison_columns : list string :=
  [ "Current Price"; "Market Cap"; "P/E Ratio (TTM)"; "Forward P/E";
    "Price/Book"; "Dividend Yield"; "Beta"; "52W High"; "52W Low";
    "Avg Volume" ].

(** The quote-info fields read by the financials table, in column order. *)
Definition financial_keys : list string :=
  [ "totalRevenue"; "netIncomeToCommon"; "operatingMargins"; "profitMargins";
    "returnOnEquity"; "debtToEquity"; "currentRatio"; "freeCashflow" ].

(** [cols = st.columns(min(len(stock_data), 3))] *)
Definition overview_columns (stock_data : dict snapshot) : nat :=
  Nat.min (List.length stock_data) 3.

(** [for idx, (ticker, data) in enumerate(stock_data.items())] with
    [with cols[idx % 3]]: indexing the list of columns out of range raises
    [IndexError] before the card is built.  Each card is paired with the
    index of its column. *)
Fixpoint overview_from (ncols idx : nat) (stock_data : dict snapshot)
  : result (list (nat * card)) :=
  match stock_data with
  | [] => Ok []
  | (ticker, snap) :: rest =>
      if idx mod 3 <? ncols then
        c <- overview_card ticker snap ;;
        cs <- overview_from ncols (S idx) rest ;;
        Ok ((idx mod 3, c) :: cs)
      else Raise
  end.

Definition overview_layout (stock_data : dict snapshot)
  : result (list (nat * card)) :=
  overview_from (overview_columns stock_data) 0 stock_data.

(** Kinds of events. *)
Definition is_sleep (e : event) : bool :=
  match e with EvSleep _ => true | _ => false end.

Definition is_status (e : event) : bool :=
  match e with EvStatus _ => true | _ => false end.

Definition is_warning (e : event) : bool :=
  match e with EvWarning _ | EvFetchWarning _ => true | _ => false end.

Definition is_progress (e : event) : bool :=
  match e with EvProgress _ _ => true | _ => false end.

Definition count_events (kind : event -> bool) (evs : list event) : nat :=
  List.length (filter kind evs).

(** The progress values shown, in order. *)
Definition progress_values (evs : list event) : list (nat * nat) :=
  flat_map (fun e => match e with EvProgress k n => [(k, n)] | _ => [] end) evs.

(** Whether a request ends with an entry stored. *)
Definition stored (ticker : string) (r : response) : bool :=
  match fst (fetch_symbol ticker r) with
  | Some _ => true
  | None => false
  end.

(** [enumerate(tickers)], counting from [idx]. *)
Fixpoint enumerate_from (idx : nat) (tks : list string) : list (nat * string) :=
  match tks with
  | [] => []
  | t :: rest => (idx, t) :: enumerate_from (S idx) rest
  end.

(** White space or a comma. *)
Definition blank_char (c : ascii) : bool :=
  PyStr.is_space c || Ascii.eqb c ",".

(** ** Sample data *)

Definition sample_bar (day : Z) (close : Q) : bar :=
  mkBar day close close close close 1000%Q.

Definition sample_info (pe : Q) : dict value :=
  [ ("shortName", VStr "Sample Inc."); ("currentPrice", VNum 150%Q);
    ("previousClose", VNum 120%Q); ("trailingPE", VNum pe) ].

(** A square root that is exact on the squares of rationals. *)
Definition sample_sqrt (q : Q) : Q :=
  (Z.sqrt (Qnum (Qred q)) # Pos.sqrt (Qden (Qred q)))%Q.

(** A provider that knows AAPL and MSFT, returns an empty history for
    EMPTY, and raises on everything else. *)
Definition sample_provider (idx : nat) (ticker period : string) : response :=
  if String.eqb ticker "AAPL" then
    mkResponse (Ok (sample_info (57 # 2)))
               (Ok [sample_bar 1 100%Q; sample_bar 2 110%Q; sample_bar 3 150%Q])
               (Ok []) (Ok [])
  else if String.eqb ticker "MSFT" then
    mkResponse (Ok (sample_info 35%Q)) (Ok [sample_bar 1 300%Q]) (Ok []) (Ok [])
  else if String.eqb ticker "EMPTY" then
    mkResponse (Ok (sample_info 10%Q)) (Ok []) (Ok []) (Ok [])
  else mkResponse Raise Raise Raise Raise.

(** * Properties *)

(** ** String primitives *)

Section Split.
Variable sep : ascii.

Lemma split_not_nil (s : string) : PyStr.split sep s <> [].
Proof.
  destruct s as [|c r]; simpl; [discriminate|].
  destruct (Ascii.eqb c sep); [discriminate|].
  destruct (PyStr.split sep r); discriminate.
Qed.

Lemma join_cons_char (c : ascii) (tok : string) (toks : list string) :
  PyStr.join sep (String c tok :: toks) = String c (PyStr.join sep (tok :: toks)).
Proof. destruct toks; reflexivity. Qed.

Lemma join_split (s : string) : PyStr.join sep (PyStr.split sep s) = s.
Proof.
  induction s as [|c r IH]; [reflexivity|].
  simpl. destruct (Ascii.eqb_spec c sep) as [->|Hne].
  - pose proof (split_not_nil r) as Hnil.
    destruct (PyStr.split sep r) as [|t ts] eqn:E; [contradiction|].
    change (String sep (PyStr.join sep (t :: ts)) = String sep r).
    now rewrite IH.
  - pose proof (split_not_nil r) as Hnil.
    destruct (PyStr.split sep r) as [|t ts] eqn:E; [contradiction|].
    now rewrite join_cons_char, IH.
Qed.

Lemma split_free (s : string) : Forall (fun t => PyStr.free sep t = true) (PyStr.split sep s).
Proof.
  induction s as [|c r IH]; simpl.
  - now constructor.
  - destruct (Ascii.eqb c sep) eqn:Ec.
    + now constructor.
    + destruct (PyStr.split sep r) as [|t ts]; inversion IH; subst;
        constructor; trivial;
        unfold PyStr.free in *; simpl; now rewrite Ec.
Qed.

Lemma split_app_free (a b : string) :
  PyStr.free sep a = true ->
  PyStr.split sep (a ++ String sep b) = a :: PyStr.split sep b.
Proof.
  induction a as [|c r IH]; simpl; intros Hf.
  - now rewrite Ascii.eqb_refl.
  - unfold PyStr.free in Hf; simpl in Hf. apply andb_true_iff in Hf as [Hc Hr].
    apply negb_true_iff in Hc. rewrite Hc, (IH Hr). reflexivity.
Qed.

Lemma split_free_id (a : string) : PyStr.free sep a = true -> PyStr.split sep a = [a].
Proof.
  induction a as [|c r IH]; simpl; intros Hf; [reflexivity|].
  unfold PyStr.free in Hf; simpl in Hf. apply andb_true_iff in Hf as [Hc Hr].
  apply negb_true_iff in Hc. rewrite Hc, (IH Hr). reflexivity.
Qed.

(** Splitting is the only way to cut a text into separator-free tokens. *)
Lemma split_join (toks : list string) :
  toks <> [] -> Forall (fun t => PyStr.free sep t = true) toks ->
  PyStr.split sep (PyStr.join sep toks) = toks.
Proof.
  induction toks as [|t ts IH]; [congruence|].
  intros _ Hall. inversion Hall as [|? ? Ht Hts]; subst.
  destruct ts as [|t' ts'].
  - simpl. now apply split_free_id.
  - change (PyStr.join sep (t :: t' :: ts'))
      with (t ++ String sep (PyStr.join sep (t' :: ts')))%string.
    rewrite split_app_free by assumption.
    f_equal. apply IH; [discriminate|assumption].
Qed.

End Split.

Lemma is_space_upper_char (c : ascii) :
  PyStr.is_space (PyStr.upper_char c) = PyStr.is_space c.
Proof. destruct c as [[] [] [] [] [] [] [] []]; reflexivity. Qed.

Lemma is_lower_upper_char (c : ascii) :
  PyStr.is_lower (PyStr.upper_char c) = false.
Proof. destruct c as [[] [] [] [] [] [] [] []]; reflexivity. Qed.

Lemma upper_cased_upper (s : string) : Spec.upper_cased (PyStr.upper s) = true.
Proof.
  induction s as [|c r IH]; [reflexivity|].
  unfold Spec.upper_cased in *; simpl.
  now rewrite is_lower_upper_char, IH.
Qed.

Lemma first_char_upper (s : string) :
  PyStr.first_char (PyStr.upper s) = option_map PyStr.upper_char (PyStr.first_char s).
Proof. destruct s; reflexivity. Qed.

Lemma last_char_upper (s : string) :
  PyStr.last_char (PyStr.upper s) = option_map PyStr.upper_char (PyStr.last_char s).
Proof.
  induction s as [|c r IH]; [reflexivity|].
  destruct r as [|c' r']; [reflexivity|].
  change (PyStr.last_char (PyStr.upper (String c' r'))
          = option_map PyStr.upper_char (PyStr.last_char (String c' r'))).
  exact IH.
Qed.

Lemma trimmed_upper (s : string) :
  Spec.trimmed s = true -> Spec.trimmed (PyStr.upper s) = true.
Proof.
  unfold Spec.trimmed. rewrite first_char_upper, last_char_upper.
  destruct (PyStr.first_char s), (PyStr.last_char s); simpl; trivial.
  now rewrite !is_space_upper_char.
Qed.

Lemma first_char_lstrip (s : string) :
  match PyStr.first_char (PyStr.lstrip s) with
  | Some c => PyStr.is_space c = false
  | None => True
  end.
Proof.
  induction s as [|c r IH]; simpl; [exact I|].
  destruct (PyStr.is_space c) eqn:E; [exact IH|]. simpl. exact E.
Qed.

Lemma first_char_rstrip (s : string) (c : ascii) :
  PyStr.first_char s = Some c -> PyStr.is_space c = false ->
  PyStr.first_char (PyStr.rstrip s) = Some c.
Proof.
  destruct s as [|a r]; simpl; [discriminate|].
  intros [= ->] Hc. destruct (PyStr.rstrip r); [now rewrite Hc|reflexivity].
Qed.

Lemma last_char_rstrip (s : string) :
  match PyStr.last_char (PyStr.rstrip s) with
  | Some c => PyStr.is_space c = false
  | None => True
  end.
Proof.
  induction s as [|c r IH]; simpl; [exact I|].
  destruct (PyStr.rstrip r) as [|c' r'] eqn:E.
  - destruct (PyStr.is_space c) eqn:Ec; simpl; trivial.
  - exact IH.
Qed.

Lemma rstrip_empty_first (s : string) :
  PyStr.rstrip s = EmptyString ->
  match PyStr.first_char s with
  | Some c => PyStr.is_space c = true
  | None => True
  end.
Proof.
  destruct s as [|c r]; simpl; [trivial|].
  destruct (PyStr.rstrip r); [|discriminate].
  destruct (PyStr.is_space c); [trivial|discriminate].
Qed.

Lemma trimmed_strip (s : string) : Spec.trimmed (PyStr.strip s) = true.
Proof.
  unfold Spec.trimmed, PyStr.strip.
  pose proof (first_char_lstrip s) as Hf.
  pose proof (last_char_rstrip (PyStr.lstrip s)) as Hl.
  destruct (PyStr.first_char (PyStr.lstrip s)) as [c|] eqn:Ec.
  - rewrite (first_char_rstrip _ _ Ec Hf).
    destruct (PyStr.last_char _); [|reflexivity].
    now rewrite Hf, Hl.
  - destruct (PyStr.lstrip s); [reflexivity|discriminate].
Qed.

(** ** Input collector *)

Lemma comprehension_stages (l : list string) :
  flat_map (fun t => if PyStr.truthy (PyStr.strip t)
                     then [PyStr.upper (PyStr.strip t)] else []) l
  = map PyStr.upper (filter PyStr.truthy (map PyStr.strip l)).
Proof.
  induction l as [|t l IH]; [reflexivity|].
  simpl. destruct (PyStr.truthy (PyStr.strip t)); simpl; now rewrite IH.
Qed.

Lemma upper_not_empty (s : string) : s <> EmptyString -> PyStr.upper s <> EmptyString.
Proof. destruct s; [congruence|discriminate]. Qed.

(** C4.  For every raw ticker text, the tokens are the pieces between the
    commas (joined by commas they give the text back, and none contains a
    comma); the parsed list is those pieces trimmed, the empty ones dropped,
    the rest upper-cased, in the order of the text and with repetitions
    kept; every parsed symbol is non-empty, has no white space at either end
    and no lower-case letter.  [" aapl, , msft "] parses to
    [["AAPL"; "MSFT"]]. *)
Theorem tickers_parse (raw : string) :
  let toks := PyStr.split "," raw in
  PyStr.join "," toks = raw
  /\ Forall (fun t => Spec.comma_free t = true) toks
  /\ tickers raw = Spec.parseRequest raw
  /\ Forall (fun t => t <> EmptyString /\ Spec.trimmed t = true
                      /\ Spec.upper_cased t = true) (tickers raw)
  /\ tickers " aapl, , msft " = ["AAPL"; "MSFT"]
  /\ tickers "aapl,AAPL, aapl" = ["AAPL"; "AAPL"; "AAPL"].
Proof.
  cbv zeta. repeat split.
  - apply join_split.
  - apply split_free.
  - apply comprehension_stages.
  - unfold tickers. rewrite comprehension_stages.
    apply Forall_forall. intros t Ht.
    apply in_map_iff in Ht as (u & <- & Hu).
    apply filter_In in Hu as (Hu & Htr).
    apply in_map_iff in Hu as (w & <- & _).
    repeat split.
    + apply upper_not_empty. destruct (PyStr.strip w); [discriminate|discriminate].
    + apply trimmed_upper, trimmed_strip.
    + apply upper_cased_upper.
Qed.

(** ** Access gate *)

Lemma check_password_unlocked (st : session) (password : string) (login : bool) :
  password_correct st = Some true ->
  check_password st password login = (Returned true, st, []).
Proof. intros H. unfold check_password. now rewrite H, H. Qed.

Lemma gate_session_unlocked (st : session) (inputs : list (string * bool)) :
  password_correct st = Some true ->
  gate_session st inputs = (map (fun _ => true) inputs, st).
Proof.
  intros H. induction inputs as [|[pw login] rest IH]; [reflexivity|].
  simpl. rewrite (check_password_unlocked st pw login H), IH. reflexivity.
Qed.

Lemma analyze_button_keeps_gate (st : session) (tks : list string) (p : string) :
  password_correct (fst (analyze_button st tks p)) = password_correct st.
Proof. destruct tks; reflexivity. Qed.

(** C5.  On a locked session, a login with a text different from the
    secret returns false, shows the error and leaves the flag false (the
    session is unchanged when the flag was already there); a login with
    the secret itself sets the flag and reruns, the gate then lets the
    page through, and from then on every check of the session returns true
    with nothing shown, whatever is typed or pressed. *)
Theorem gate_exact_match (st : session) (password : string) :
  password_correct st <> Some true ->
  let st0 := match password_correct st with
             | None => set_password_correct st false
             | Some _ => st
             end in
  let st1 := set_password_correct st0 true in
  (password <> CORRECT_PASSWORD ->
     check_password st password true
     = (Returned false, st0, login_prompt ++ [EvError "😕 Incorrect password"])
     /\ password_correct st0 = Some false
     /\ access_gate 1 st password true
        = Some (false, st0, login_prompt ++ [EvError "😕 Incorrect password"]))
  /\ (password = CORRECT_PASSWORD ->
     check_password st password true = (Rerun, st1, login_prompt)
     /\ password_correct st1 = Some true
     /\ access_gate 1 st password true = Some (true, st1, [])
     /\ (forall pw login, check_password st1 pw login = (Returned true, st1, []))
     /\ (forall inputs,
          gate_session st1 inputs = (map (fun _ => true) inputs, st1))
     /\ (forall tks p,
          password_correct (fst (analyze_button st1 tks p)) = Some true)).
Proof.
  intros Hlocked st0 st1.
  assert (H0 : password_correct st0 = Some false).
  { subst st0. destruct (password_correct st) as [[|]|] eqn:E; trivial.
    congruence. }
  assert (Hst : check_password st password true
                = if String.eqb password CORRECT_PASSWORD
                  then (Rerun, st1, login_prompt)
                  else (Returned false, st0,
                        login_prompt ++ [EvError "😕 Incorrect password"])).
  { unfold check_password. fold st0. rewrite H0. reflexivity. }
  split.
  - intros Hne. apply String.eqb_neq in Hne. rewrite Hne in Hst.
    repeat split; trivial. simpl. now rewrite Hst.
  - intros Heq. apply String.eqb_eq in Heq. rewrite Heq in Hst.
    assert (H1 : password_correct st1 = Some true) by reflexivity.
    split; [exact Hst|]. split; [exact H1|]. split; [|split; [|split]].
    + simpl. rewrite Hst.
      now rewrite (check_password_unlocked st1 password false H1).
    + intros. now apply check_password_unlocked.
    + intros. now apply gate_session_unlocked.
    + intros. now rewrite analyze_button_keeps_gate.
Qed.

Lemma gate_exact_match_witness :
  (check_password fresh_session "wrong" true
   = (Returned false, set_password_correct fresh_session false,
      login_prompt ++ [EvError "😕 Incorrect password"]))
  /\ access_gate 1 fresh_session "Invest2026" true
     = Some (true, set_password_correct fresh_session true, []).
Proof.
  assert (Hlocked : password_correct fresh_session <> Some true)
    by (simpl; discriminate).
  destruct (gate_exact_match fresh_session "wrong" Hlocked) as [Hbad _].
  destruct (gate_exact_match fresh_session "Invest2026" Hlocked) as [_ Hgood].
  split.
  - apply Hbad. discriminate.
  - apply Hgood. reflexivity.
Defined.

(** ** Dictionaries *)

Section DictFacts.
Context {V : Type}.

Lemma dict_lookup_set (d : dict V) (k k' : string) (v : V) :
  dict_lookup (dict_set d k v) k'
  = if String.eqb k' k then Some v else dict_lookup d k'.
Proof.
  induction d as [|[k0 v0] rest IH]; simpl.
  - reflexivity.
  - destruct (String.eqb_spec k k0) as [->|Hk]; simpl.
    + destruct (String.eqb k' k0); reflexivity.
    + rewrite IH. destruct (String.eqb_spec k' k0) as [->|Hk'].
      * apply String.eqb_neq in Hk. rewrite String.eqb_sym in Hk.
        now rewrite Hk.
      * reflexivity.
Qed.

Lemma dict_lookup_keys (d : dict V) (k : string) :
  In k (dict_keys d) <-> dict_lookup d k <> None.
Proof.
  induction d as [|[k0 v0] rest IH]; simpl.
  - split; [contradiction|congruence].
  - destruct (String.eqb_spec k k0) as [->|Hk].
    + split; [discriminate|auto].
    + rewrite <- IH. split; [intros [H|H]; congruence|auto].
Qed.

Lemma dict_lookup_nil (d : dict V) :
  (forall k, dict_lookup d k = None) -> d = [].
Proof.
  destruct d as [|[k0 v0] rest]; [reflexivity|].
  intros H. specialize (H k0). simpl in H. rewrite String.eqb_refl in H.
  discriminate.
Qed.

End DictFacts.

(** ** Market data fetcher *)

Lemma fetch_symbol_stores (ticker : string) (r : response) (snap : snapshot) :
  fst (fetch_symbol ticker r) = Some snap ->
  Spec.complete snap
  /\ snap = mkSnapshot ticker (info snap) (history snap)
             (financials snap) (balance_sheet snap)
  /\ r_info r = Ok (info snap) /\ r_history r = Ok (history snap)
  /\ r_financials r = Ok (financials snap)
  /\ r_balance_sheet r = Ok (balance_sheet snap).
Proof.
  unfold fetch_symbol, Spec.complete.
  destruct (r_info r) as [inf|]; [|discriminate].
  destruct (r_history r) as [hist|]; [|discriminate].
  destruct hist as [|b hist]; [discriminate|].
  destruct inf as [|kv inf]; [discriminate|].
  simpl.
  destruct (r_financials r) as [fin|]; [|discriminate].
  destruct (r_balance_sheet r) as [bs|]; [|discriminate].
  simpl. intros [= <-]. simpl. repeat split; discriminate.
Qed.

Lemma fetch_symbol_failed (ticker : string) (r : response) :
  Spec.fetch_failed r <-> fst (fetch_symbol ticker r) = None.
Proof.
  unfold Spec.fetch_failed, fetch_symbol.
  destruct (r_info r) as [inf|]; [|tauto].
  destruct (r_history r) as [hist|]; [|tauto].
  destruct hist as [|b hist]; [tauto|].
  destruct inf as [|kv inf]; [tauto|].
  simpl.
  destruct (r_financials r) as [fin|]; [|tauto].
  destruct (r_balance_sheet r) as [bs|]; [|tauto].
  simpl. split; [|discriminate].
  intros [H|[H|[H|[H|[H|H]]]]]; discriminate.
Qed.

Lemma fetch_symbol_events (ticker : string) (r : response) (msg : string) :
  ~ In (EvError msg) (snd (fetch_symbol ticker r)).
Proof.
  unfold fetch_symbol.
  destruct (r_info r); [|simpl; intros [H|[]]; discriminate].
  destruct (r_history r); [|simpl; intros [H|[]]; discriminate].
  destruct ((0 <? List.length a0) && dict_truthy a);
    [|simpl; intros [H|[]]; discriminate].
  destruct (r_financials r); [|simpl; intros [H|[]]; discriminate].
  destruct (r_balance_sheet r); simpl; [tauto|intros [H|[]]; discriminate].
Qed.

Section FetcherFacts.
Variable provider : nat -> string -> string -> response.
Variable period : string.

(** What the loop leaves under a key: what was there before, or the whole
    answer of a request for that key that succeeded. *)
Lemma fetch_loop_lookup (tks : list string) :
  forall (idx total : nat) (stock_data : dict snapshot) (k : string),
  match dict_lookup (fst (fetch_loop provider period idx total tks stock_data)) k with
  | Some snap =>
      dict_lookup stock_data k = Some snap
      \/ exists i, nth_error tks i = Some k
                   /\ fst (fetch_symbol k (provider (idx + i) k period)) = Some snap
  | None =>
      dict_lookup stock_data k = None
      /\ forall i, nth_error tks i = Some k ->
                   fst (fetch_symbol k (provider (idx + i) k period)) = None
  end.
Proof.
  induction tks as [|t rest IH]; intros idx total sd k; simpl.
  - destruct (dict_lookup sd k); [now left|].
    split; [reflexivity|]. intros [|i]; discriminate.
  - destruct (fetch_symbol t (provider idx t period)) as [got warned] eqn:Ef.
    set (sd' := match got with
                | Some snap => dict_set sd t snap
                | None => sd
                end).
    specialize (IH (S idx) total sd' k).
    destruct (fetch_loop provider period (S idx) total rest sd') as [final later].
    simpl in *.
    assert (Hsd' : dict_lookup sd' k
                   = match got with
                     | Some snap => if String.eqb k t then Some snap
                                    else dict_lookup sd k
                     | None => dict_lookup sd k
                     end).
    { subst sd'. destruct got; [apply dict_lookup_set|reflexivity]. }
    destruct (dict_lookup final k) as [snap|].
    + destruct IH as [Hin|(i & Hi & Hs)].
      * rewrite Hsd' in Hin. destruct got as [s0|]; [|now left].
        destruct (String.eqb_spec k t) as [->|Hk]; [|now left].
        right. exists 0. split; [reflexivity|].
        rewrite Nat.add_0_r, Ef. simpl. congruence.
      * right. exists (S i). split; [exact Hi|].
        now rewrite Nat.add_succ_r.
    + destruct IH as [Hnone Hrest]. rewrite Hsd' in Hnone.
      split.
      * destruct got; [|exact Hnone].
        destruct (String.eqb k t); [discriminate|exact Hnone].
      * intros [|i] Hi; simpl in Hi.
        -- injection Hi as ->. rewrite Nat.add_0_r, Ef. simpl.
           destruct got; [|reflexivity].
           rewrite String.eqb_refl in Hnone. discriminate.
        -- rewrite Nat.add_succ_r. now apply Hrest.
Qed.

Lemma fetch_loop_events (tks : list string) (msg : string) :
  forall (idx total : nat) (stock_data : dict snapshot),
  ~ In (EvError msg) (snd (fetch_loop provider period idx total tks stock_data)).
Proof.
  induction tks as [|t rest IH]; intros idx total sd; simpl; [tauto|].
  pose proof (fetch_symbol_events t (provider idx t period) msg) as Hw.
  destruct (fetch_symbol t (provider idx t period)) as [got warned].
  match goal with
  | |- context [fetch_loop provider period (S idx) total rest ?d] =>
      specialize (IH (S idx) total d);
      destruct (fetch_loop provider period (S idx) total rest d) as [final later]
  end.
  simpl in *. intros [H|H]; [discriminate|].
  apply in_app_or in H as [H|H]; [tauto|].
  simpl in H. destruct H as [H|[H|H]]; try discriminate. tauto.
Qed.

End FetcherFacts.

Section FetcherClaims.
Variable provider : nat -> string -> string -> response.
Variable period : string.

(** C1.  Whatever the provider answers, an entry found under a key after
    the fetch loop has a non-empty history and a non-empty quote info, and
    it is the whole answer to one request for that key in which nothing
    raised; a key all of whose requests failed (empty history, empty quote
    info or an exception) has no entry. *)
Theorem fetch_all_never_partial (tks : list string) (k : string) :
  (forall snap,
     dict_lookup (fst (fetch_all provider period tks)) k = Some snap ->
     Spec.complete snap
     /\ exists idx, nth_error tks idx = Some k
          /\ r_info (provider idx k period) = Ok (info snap)
          /\ r_history (provider idx k period) = Ok (history snap)
          /\ r_financials (provider idx k period) = Ok (financials snap)
          /\ r_balance_sheet (provider idx k period) = Ok (balance_sheet snap))
  /\ ((forall idx, nth_error tks idx = Some k ->
         Spec.fetch_failed (provider idx k period)) ->
      dict_lookup (fst (fetch_all provider period tks)) k = None).
Proof.
  pose proof (fetch_loop_lookup provider period tks 0 (List.length tks) [] k) as H.
  fold (fetch_all provider period tks) in H.
  split.
  - intros snap Hk. rewrite Hk in H.
    destruct H as [H|(i & Hi & Hs)]; [discriminate|].
    apply fetch_symbol_stores in Hs as (Hc & _ & Hinfo & Hhist & Hfin & Hbs).
    split; [exact Hc|]. exists i. simpl in *. auto.
  - intros Hall.
    destruct (dict_lookup (fst (fetch_all provider period tks)) k) as [snap|];
      [|reflexivity].
    destruct H as [H|(i & Hi & Hs)]; [discriminate|].
    specialize (Hall i Hi). apply (fetch_symbol_failed k) in Hall.
    simpl in Hs. congruence.
Qed.

Lemma fetch_all_no_error (tks : list string) :
  filter is_error (snd (fetch_all provider period tks)) = [].
Proof.
  pose proof (fun msg => fetch_loop_events provider period tks msg
                           0 (List.length tks) []) as Hnone.
  fold (fetch_all provider period tks) in Hnone.
  induction (snd (fetch_all provider period tks)) as [|e evs IH];
    [reflexivity|].
  simpl. destruct e; simpl;
    try (apply IH; intros msg H; apply (Hnone msg); now right).
  exfalso. apply (Hnone s). now left.
Qed.

(** C3.  When every request fails, the mapping is empty and the run stops
    after showing the total-failure error, the one error of the run, which
    comes after whatever the loop showed and is followed by the list of
    likely causes; when some request succeeds, the run goes on to render
    the mapping, which holds exactly the symbols with a successful request,
    and no error is shown. *)
Theorem total_failure_path (tks : list string) :
  ((forall idx k, nth_error tks idx = Some k ->
      Spec.fetch_failed (provider idx k period)) ->
   fst (fetch_all provider period tks) = []
   /\ run_analysis provider period tks
      = (Stopped, snd (fetch_all provider period tks) ++ total_failure_message)
   /\ filter is_error (snd (run_analysis provider period tks))
      = [EvError "⚠️ Could not fetch data for any stocks. This might be due to:"]
   /\ exists causes,
        snd (run_analysis provider period tks)
        = snd (fetch_all provider period tks)
          ++ [EvError "⚠️ Could not fetch data for any stocks. This might be due to:";
              EvMarkdown causes])
  /\ ((exists idx k, nth_error tks idx = Some k
         /\ ~ Spec.fetch_failed (provider idx k period)) ->
      exists stock_data,
        stock_data <> []
        /\ stock_data = fst (fetch_all provider period tks)
        /\ run_analysis provider period tks
           = (Rendered stock_data, snd (fetch_all provider period tks))
        /\ (forall msg, ~ In (EvError msg) (snd (fetch_all provider period tks)))
        /\ filter is_error (snd (run_analysis provider period tks)) = []
        /\ (forall k, In k (dict_keys stock_data) <->
               exists idx, nth_error tks idx = Some k
                 /\ ~ Spec.fetch_failed (provider idx k period))).
Proof.
  assert (Hlk := fun k => fetch_loop_lookup provider period tks 0 (List.length tks) [] k).
  fold (fetch_all provider period tks) in Hlk.
  split.
  - intros Hall.
    assert (Hnil : fst (fetch_all provider period tks) = []).
    { apply dict_lookup_nil. intros k. specialize (Hlk k).
      destruct (dict_lookup (fst (fetch_all provider period tks)) k) as [snap|];
        [|reflexivity].
      destruct Hlk as [H|(i & Hi & Hs)]; [discriminate|].
      specialize (Hall i k Hi). apply (fetch_symbol_failed k) in Hall.
      simpl in Hs. congruence. }
    split; [exact Hnil|].
    assert (Hrun : run_analysis provider period tks
                   = (Stopped, snd (fetch_all provider period tks)
                               ++ total_failure_message)).
    { unfold run_analysis.
      destruct (fetch_all provider period tks) as [sd ev]. simpl in *.
      now subst sd. }
    split; [exact Hrun|]. rewrite Hrun. cbn [snd]. split.
    + rewrite filter_app, fetch_all_no_error. reflexivity.
    + eexists. reflexivity.
  - intros (idx & k & Hk & Hok).
    assert (Hkeys : forall k', In k' (dict_keys (fst (fetch_all provider period tks))) <->
               exists idx, nth_error tks idx = Some k'
                 /\ ~ Spec.fetch_failed (provider idx k' period)).
    { intros k'. rewrite dict_lookup_keys. specialize (Hlk k').
      destruct (dict_lookup (fst (fetch_all provider period tks)) k') as [snap|].
      - split; [intros _|discriminate].
        destruct Hlk as [H|(i & Hi & Hs)]; [discriminate|].
        exists i. split; [exact Hi|].
        rewrite (fetch_symbol_failed k'). simpl in Hs. congruence.
      - split; [congruence|]. intros (i & Hi & Hnf).
        destruct Hlk as [_ Hlk]. specialize (Hlk i Hi).
        apply fetch_symbol_failed in Hlk. contradiction. }
    exists (fst (fetch_all provider period tks)).
    assert (Hne : fst (fetch_all provider period tks) <> []).
    { intros Hnil. assert (Hin : In k (dict_keys (fst (fetch_all provider period tks)))).
      { apply Hkeys. eauto. }
      rewrite Hnil in Hin. exact Hin. }
    assert (Hrun : run_analysis provider period tks
                   = (Rendered (fst (fetch_all provider period tks)),
                      snd (fetch_all provider period tks))).
    { unfold run_analysis.
      destruct (fetch_all provider period tks) as [sd ev]. simpl in *.
      destruct sd; [congruence|reflexivity]. }
    split; [exact Hne|]. split; [reflexivity|].
    split; [exact Hrun|]. split; [|split; [|exact Hkeys]].
    + intros msg. apply fetch_loop_events.
    + rewrite Hrun. apply fetch_all_no_error.
Qed.

End FetcherClaims.

Lemma fetch_all_never_partial_witness :
  Spec.complete
    (mkSnapshot "MSFT" (sample_info 35%Q) [sample_bar 1 300%Q] [] [])
  /\ dict_lookup (fst (fetch_all sample_provider "1y" ["EMPTY"; "MSFT"; "NOPE"]))
       "EMPTY" = None.
Proof.
  split.
  - apply (fetch_all_never_partial sample_provider "1y"
             ["EMPTY"; "MSFT"; "NOPE"] "MSFT").
    reflexivity.
  - apply (fetch_all_never_partial sample_provider "1y"
             ["EMPTY"; "MSFT"; "NOPE"] "EMPTY").
    intros [|[|[|idx]]] H; simpl in H; try discriminate.
    + unfold Spec.fetch_failed. simpl. tauto.
    + destruct idx; discriminate.
Defined.

Lemma total_failure_path_witness :
  filter is_error (snd (run_analysis sample_provider "1y" ["EMPTY"; "NOPE"]))
  = [EvError "⚠️ Could not fetch data for any stocks. This might be due to:"]
  /\ exists stock_data,
       run_analysis sample_provider "1y" ["EMPTY"; "MSFT"]
       = (Rendered stock_data, snd (fetch_all sample_provider "1y" ["EMPTY"; "MSFT"]))
       /\ dict_keys stock_data = ["MSFT"].
Proof.
  split.
  - apply (total_failure_path sample_provider "1y" ["EMPTY"; "NOPE"]).
    intros [|[|idx]] k H; simpl in H; try (destruct idx; discriminate);
      injection H as <-; unfold Spec.fetch_failed; simpl; tauto.
  - destruct (proj2 (total_failure_path sample_provider "1y" ["EMPTY"; "MSFT"]))
      as (sd & _ & Hsd & Hrun & _).
    + exists 1, "MSFT". split; [reflexivity|].
      unfold Spec.fetch_failed. simpl.
      intros [H|[H|[H|[H|[H|H]]]]]; discriminate.
    + exists sd. split; [exact Hrun|]. subst sd. reflexivity.
Defined.

(** ** Derived metrics *)

Local Open Scope Q_scope.

Lemma Qgtb_true (a b : Q) : Qgtb a b = true <-> b < a.
Proof.
  unfold Qgtb. rewrite negb_true_iff, <- not_true_iff_false, Qle_bool_iff.
  split; [apply Qnot_le_lt|apply Qlt_not_le].
Qed.

Lemma Qgtb_false (a b : Q) : Qgtb a b = false <-> a <= b.
Proof. unfold Qgtb. now rewrite negb_false_iff, Qle_bool_iff. Qed.

Lemma Qltb_true (a b : Q) : Qltb a b = true <-> a < b.
Proof. apply Qgtb_true. Qed.

Lemma Qeq_bool_nonzero (q : Q) : ~ q == 0 -> Qeq_bool q 0 = false.
Proof.
  intros Hq. destruct (Qeq_bool q 0) eqn:E; [|reflexivity].
  apply Qeq_bool_iff in E. contradiction.
Qed.

(** Float arithmetic on finite numbers with a non-zero divisor is the
    arithmetic of the rationals. *)
Lemma relative_change_finite (a b : Q) :
  ~ b == 0 ->
  xmul (xdiv (xsub a b) b) 100 = Fin ((a - b) / b * 100).
Proof.
  intros Hb. cbn [xsub xdiv]. rewrite (Qeq_bool_nonzero b Hb). reflexivity.
Qed.

(** C2.  With a numeric current price [cp]: when the previous close [pc]
    is positive the percentage is [(cp - pc) / pc * 100]; when it is zero
    or negative, and when the field is absent, the percentage is the
    constant 0 whatever [cp] is. *)
Theorem change_pct_formula (inf : dict value) (hist : list bar) (cp : Q) :
  current_price inf hist = VNum cp ->
  (forall pc, previous_close inf = VNum pc -> 0 < pc ->
              change_pct inf hist = Ok ((cp - pc) / pc * 100))
  /\ (forall pc, previous_close inf = VNum pc -> pc <= 0 ->
                 change_pct inf hist = Ok 0)
  /\ (dict_lookup inf "previousClose" = None -> change_pct inf hist = Ok 0).
Proof.
  intros Hcp. unfold change_pct. rewrite Hcp. cbn [as_num bind].
  split; [|split].
  - intros pc Hpc Hpos. rewrite Hpc. cbn [as_num bind xgtb].
    rewrite relative_change_finite.
    + apply Qgtb_true in Hpos. unfold Qgtb in Hpos. now rewrite Hpos.
    + intros Hz. rewrite Hz in Hpos. discriminate Hpos.
  - intros pc Hpc Hneg. rewrite Hpc. cbn [as_num bind xgtb].
    apply Qgtb_false in Hneg. unfold Qgtb in Hneg. now rewrite Hneg.
  - intros Hnone. unfold previous_close, dict_get. rewrite Hnone. reflexivity.
Qed.

Lemma change_pct_formula_witness :
  change_pct (sample_info 20) [] = Ok ((150 - 120) / 120 * 100)
  /\ change_pct [("currentPrice", VNum 150); ("previousClose", VNum (-3))] [] = Ok 0
  /\ change_pct [("currentPrice", VNum 150)] [] = Ok 0.
Proof.
  split; [|split].
  - destruct (change_pct_formula (sample_info 20) [] 150 eq_refl) as (H & _ & _).
    apply (H 120 eq_refl). reflexivity.
  - destruct (change_pct_formula
                [("currentPrice", VNum 150); ("previousClose", VNum (-3))] [] 150
                eq_refl) as (_ & H & _).
    apply (H (-3) eq_refl). discriminate.
  - destruct (change_pct_formula [("currentPrice", VNum 150)] [] 150 eq_refl)
      as (_ & _ & H).
    apply H. reflexivity.
Defined.

(** ** P/E bar chart *)

Lemma pe_in_chart_number (q : Q) :
  pe_in_chart (VNum q) = Ok (Qltb 0 q && Qltb q 100).
Proof.
  unfold pe_in_chart, py_gt, py_lt, truthy, Qltb. cbn [as_num bind xgtb xltb].
  destruct (Qeq_bool q 0) eqn:E0; simpl.
  - apply Qeq_bool_iff in E0.
    assert (H : Qle_bool q 0 = true) by (apply Qle_bool_iff; rewrite E0; apply Qle_refl).
    now rewrite H.
  - destruct (Qle_bool q 0); reflexivity.
Qed.

Lemma pe_in_chart_range (q : Q) :
  pe_in_chart (VNum q) = Ok true <-> 0 < q /\ q < 100.
Proof.
  rewrite pe_in_chart_number. rewrite <- !Qltb_true.
  destruct (Qltb 0 q), (Qltb q 100); simpl; intuition congruence.
Qed.

Lemma pe_in_chart_nonfinite (x : nonfinite) :
  pe_in_chart (VNonFinite x) = Ok false.
Proof. destruct x; reflexivity. Qed.

(** C6.  When no trailing PE is a string, the chart is built, and a symbol
    is in it exactly when its trailing PE is a number [q] with
    [0 < q < 100]; a symbol with [q <= 0], [100 <= q], or no PE at all
    is left out.  For PE values AAPL 28.5, XYZ 150, ABC -5 the chart holds
    AAPL alone. *)
Theorem pe_chart_filter (stock_data : dict snapshot) :
  (forall ticker snap s, In (ticker, snap) stock_data ->
     dict_get (info snap) "trailingPE" VNone <> VStr s) ->
  (exists rows,
     pe_data stock_data = Ok rows
     /\ forall ticker pe,
          In (ticker, pe) rows <->
          exists snap q, In (ticker, snap) stock_data
            /\ dict_get (info snap) "trailingPE" VNone = VNum q
            /\ pe = VNum q /\ 0 < q /\ q < 100)
  /\ pe_data [ ("AAPL", mkSnapshot "AAPL" (sample_info (57 # 2)) [] [] []);
               ("XYZ", mkSnapshot "XYZ" (sample_info 150) [] [] []);
               ("ABC", mkSnapshot "ABC" (sample_info (-5)) [] [] []) ]
     = Ok [("AAPL", VNum (57 # 2))].
Proof.
  intros Htyped. split; [|reflexivity].
  induction stock_data as [|[t snap] rest IH].
  - exists []. split; [reflexivity|]. intros ticker pe. simpl.
    split; [contradiction|]. intros (? & ? & [] & _).
  - destruct IH as (rows & Hrows & Hin).
    { intros ticker snap' s H. apply (Htyped ticker). now right. }
    simpl. rewrite Hrows.
    assert (Ht := Htyped t snap).
    destruct (dict_get (info snap) "trailingPE" VNone) as [|q|s|x] eqn:Epe;
      [| | |rewrite pe_in_chart_nonfinite].
    1, 4: (exists rows; split; [reflexivity|]; intros ticker pe; rewrite Hin;
           split;
           [ intros (snap' & q & H & Hrest); exists snap', q;
             split; [now right|exact Hrest]
           | intros (snap' & q & [H|H] & Hq & Hrest);
             [ injection H as <- <-; congruence
             | exists snap', q; auto ] ]).
    + rewrite pe_in_chart_number. simpl.
      destruct (Qltb 0 q && Qltb q 100) eqn:Ekeep.
      * exists ((t, VNum q) :: rows). split; [reflexivity|].
        intros ticker pe. simpl. rewrite Hin.
        apply andb_true_iff in Ekeep as [E1 E2].
        apply Qltb_true in E1, E2.
        split.
        -- intros [H|(snap' & q' & H & Hrest)].
           ++ injection H as <- <-. exists snap, q. auto.
           ++ exists snap', q'. split; [now right|exact Hrest].
        -- intros (snap' & q' & [H|H] & Hq & Hpe & Hrest).
           ++ injection H as <- <-. left. congruence.
           ++ right. exists snap', q'. auto.
      * exists rows. split; [reflexivity|]. intros ticker pe. rewrite Hin.
        split.
        -- intros (snap' & q' & H & Hrest). exists snap', q'. split; [now right|exact Hrest].
        -- intros (snap' & q' & [H|H] & Hq & Hpe & H0 & H100).
           ++ injection H as <- <-. rewrite Epe in Hq. injection Hq as <-.
              apply Qltb_true in H0, H100. rewrite H0, H100 in Ekeep. discriminate.
           ++ exists snap', q'. auto.
    + exfalso. apply (Ht s); [now left|reflexivity].
Qed.

Lemma pe_chart_filter_witness :
  exists rows,
    pe_data [ ("AAPL", mkSnapshot "AAPL" (sample_info (57 # 2)) [] [] []);
              ("XYZ", mkSnapshot "XYZ" (sample_info 150) [] [] []) ] = Ok rows.
Proof.
  destruct (pe_chart_filter
              [ ("AAPL", mkSnapshot "AAPL" (sample_info (57 # 2)) [] [] []);
                ("XYZ", mkSnapshot "XYZ" (sample_info 150) [] [] []) ])
    as [(rows & Hrows & _) _].
  - intros ticker snap s [H|[H|[]]]; injection H as <- <-; discriminate.
  - exists rows. exact Hrows.
Defined.

Local Close Scope Q_scope.

(** ** Performance summary *)

Local Open Scope Q_scope.

Lemma closes_ends (first lst : bar) (mid : list bar) :
  start_price (first :: mid ++ [lst]) = bar_close first
  /\ end_price (first :: mid ++ [lst]) = bar_close lst.
Proof.
  split; [reflexivity|].
  unfold end_price, closes. rewrite app_comm_cons, map_app. simpl map at 2.
  apply last_last.
Qed.

Lemma two_points (hist : list bar) :
  (2 <= List.length hist)%nat ->
  exists first mid lst, hist = first :: mid ++ [lst].
Proof.
  destruct hist as [|first rest]; simpl; [lia|]. intros Hlen.
  destruct (exists_last (l := rest)) as (mid & lst & ->).
  - destruct rest; [simpl in Hlen; lia|discriminate].
  - now exists first, mid, lst.
Qed.

Lemma perf_data_app (sqrt : Q -> Q) (a b : dict snapshot) :
  perf_data sqrt (a ++ b) = perf_data sqrt a ++ perf_data sqrt b.
Proof. apply flat_map_app. Qed.

Lemma zero_start_not_finite (a b : Q) :
  b == 0 -> exists x, xmul (xdiv (xsub a b) b) 100 = NonFin x.
Proof.
  intros Hb. apply Qeq_bool_iff in Hb. cbn [xsub xdiv]. rewrite Hb.
  destruct (Qeq_bool (a - b) 0); [now exists NaN|].
  destruct (Qle_bool 0 (a - b)); [now exists PosInf|now exists NegInf].
Qed.

(** C7.  A symbol whose history has two points or more gets a row in the
    performance table, at its place in the order of the mapping; the row
    shows the total return of the window, which is
    [(lastClose - firstClose) / firstClose * 100] when the first close is
    not zero (with a zero first close the float division gives an infinity
    or NaN).  A symbol whose history has zero or one point gets no row at
    all: the table is the one built without it. *)
Theorem total_return_window (sqrt : Q -> Q) (ticker : string)
  (snap : snapshot) (before after : dict snapshot) :
  ((2 <= List.length (history snap))%nat ->
     exists first mid lst row,
       history snap = first :: mid ++ [lst]
       /\ perf_entry sqrt ticker (history snap) = Some row
       /\ perf_data sqrt (before ++ (ticker, snap) :: after)
          = perf_data sqrt before ++ row :: perf_data sqrt after
       /\ perf_ticker row = ticker
       /\ perf_total_return row = Fmt.percent_2f (total_return (history snap))
       /\ (~ bar_close first == 0 ->
           total_return (history snap)
           = Fin ((bar_close lst - bar_close first) / bar_close first * 100))
       /\ (bar_close first == 0 ->
           exists x, total_return (history snap) = NonFin x))
  /\ ((List.length (history snap) <= 1)%nat ->
       perf_entry sqrt ticker (history snap) = None
       /\ perf_data sqrt (before ++ (ticker, snap) :: after)
          = perf_data sqrt before ++ perf_data sqrt after).
Proof.
  split.
  - intros Hlen.
    destruct (two_points (history snap) Hlen) as (first & mid & lst & Hhist).
    assert (Hentry : exists row,
               perf_entry sqrt ticker (history snap) = Some row
               /\ perf_ticker row = ticker
               /\ perf_total_return row
                  = Fmt.percent_2f (total_return (history snap))).
    { unfold perf_entry. apply Nat.ltb_lt in Hlen. rewrite Hlen.
      eexists. split; [reflexivity|]. split; reflexivity. }
    destruct Hentry as (row & Hrow & Hticker & Hshown).
    exists first, mid, lst, row.
    split; [exact Hhist|]. split; [exact Hrow|]. split; [|split; [exact Hticker|]].
    + rewrite perf_data_app. f_equal. cbn [perf_data flat_map].
      now rewrite Hrow.
    + split; [exact Hshown|].
      unfold total_return. rewrite Hhist.
      destruct (closes_ends first lst mid) as [-> ->].
      split.
      * intros Hfirst. now apply relative_change_finite.
      * apply zero_start_not_finite.
  - intros Hlen.
    assert (Hnone : perf_entry sqrt ticker (history snap) = None).
    { unfold perf_entry.
      destruct (Nat.ltb_spec 1 (List.length (history snap))); [lia|reflexivity]. }
    split; [exact Hnone|].
    rewrite perf_data_app. f_equal. cbn [perf_data flat_map].
    now rewrite Hnone.
Qed.

Lemma total_return_window_witness :
  (exists row,
     perf_data sample_sqrt
       [("AAPL", mkSnapshot "AAPL" (sample_info 20)
                   [sample_bar 1 100; sample_bar 2 110; sample_bar 3 150] [] [])]
     = [row]
     /\ perf_total_return row = "50.00%"%string)
  /\ perf_data sample_sqrt
       [("MSFT", mkSnapshot "MSFT" (sample_info 35) [sample_bar 1 300] [] [])]
     = [].
Proof.
  split.
  - destruct (total_return_window sample_sqrt "AAPL"
                (mkSnapshot "AAPL" (sample_info 20)
                   [sample_bar 1 100; sample_bar 2 110; sample_bar 3 150] [] [])
                [] []) as [H _].
    destruct H as (first & mid & lst & row & _ & Hrow & Htable & _ & Hshown & _);
      [simpl; lia|].
    exists row. split; [exact Htable|].
    rewrite Hshown. vm_compute. reflexivity.
  - apply (total_return_window sample_sqrt "MSFT"
             (mkSnapshot "MSFT" (sample_info 35) [sample_bar 1 300] [] [])
             [] []).
    simpl. lia.
Defined.

(** ** Volatility *)

Lemma Qsum_squares_nonneg (f : Q -> Q) (xs : list Q) :
  0 <= Qsum (map (fun x => f x * f x) xs).
Proof.
  induction xs as [|x xs IH]; simpl; [apply Qle_refl|].
  rewrite <- (Qplus_0_r 0). apply Qplus_le_compat; [|exact IH].
  destruct (Qlt_le_dec (f x) 0) as [Hneg|Hpos].
  - setoid_replace (f x * f x) with ((- f x) * (- f x)) by ring.
    apply Qmult_le_0_compat; apply (Qopp_le_compat (f x) 0), Qlt_le_weak, Hneg.
  - now apply Qmult_le_0_compat.
Qed.

Lemma sum_sq_dev_nonneg (xs : list Q) : 0 <= sum_sq_dev xs.
Proof.
  unfold sum_sq_dev. apply (Qsum_squares_nonneg (fun x => x - mean xs)).
Qed.

Lemma smaller_divisor (s : Q) (n : Z) :
  0 < s -> (2 <= n)%Z -> s / inject_Z (n - 0) < s / inject_Z (n - 1).
Proof.
  intros Hs Hn. unfold Qdiv.
  assert (H1 : 0 < inject_Z (n - 1)).
  { change 0 with (inject_Z 0). rewrite <- Zlt_Qlt. lia. }
  assert (H0 : 0 < inject_Z (n - 0)).
  { change 0 with (inject_Z 0). rewrite <- Zlt_Qlt. lia. }
  apply Qmult_lt_l; [exact Hs|].
  apply -> Qinv_lt_contravar; trivial.
  rewrite <- Zlt_Qlt. lia.
Qed.

(** C10.  A row exists only for a history of two points or more; its
    volatility is the root of the sample variance of the closes (squared
    deviations over [n - 1]) written with two decimals; the divisor
    [n - 1] is positive; and the sample variance is strictly above the
    population variance (divisor [n]) as soon as the closes are not all
    equal. *)
Theorem volatility_sample_std (sqrt : Q -> Q) (ticker : string)
  (hist : list bar) (row : perf_row) :
  perf_entry sqrt ticker hist = Some row ->
  let xs := closes hist in
  let n := Z.of_nat (List.length xs) in
  perf_volatility row = Fmt.plain_2f (sqrt (Spec.sample_variance xs))
  /\ (2 <= n)%Z
  /\ 0 < inject_Z (n - 1)
  /\ (~ sum_sq_dev xs == 0 ->
      Spec.population_variance xs < Spec.sample_variance xs).
Proof.
  intros Hrow xs n. unfold perf_entry in Hrow.
  destruct (Nat.ltb_spec 1 (List.length hist)) as [Hlen|]; [|discriminate].
  injection Hrow as <-. simpl.
  assert (Hn : (2 <= n)%Z).
  { subst n xs. unfold closes. rewrite length_map. lia. }
  split; [reflexivity|]. split; [exact Hn|]. split.
  - change 0 with (inject_Z 0). rewrite <- Zlt_Qlt. lia.
  - intros Hvar. apply smaller_divisor; [|exact Hn].
    pose proof (sum_sq_dev_nonneg xs) as Hge.
    apply Qle_lt_or_eq in Hge as [Hlt|Heq]; [exact Hlt|].
    exfalso. apply Hvar. now symmetry.
Qed.

Lemma volatility_sample_std_witness :
  perf_entry sample_sqrt "AAPL"
    [sample_bar 1 100; sample_bar 2 102; sample_bar 3 104]
  = Some (mkPerfRow "AAPL" "$100.00" "$104.00" "4.00%" "2.00")
  /\ "2.00"%string
     = Fmt.plain_2f (sample_sqrt (Spec.sample_variance [100; 102; 104]))
  /\ Spec.population_variance [100; 102; 104]
     < Spec.sample_variance [100; 102; 104].
Proof.
  assert (Hrow : perf_entry sample_sqrt "AAPL"
                   [sample_bar 1 100; sample_bar 2 102; sample_bar 3 104]
                 = Some (mkPerfRow "AAPL" "$100.00" "$104.00" "4.00%" "2.00"))
    by (vm_compute; reflexivity).
  destruct (volatility_sample_std sample_sqrt "AAPL" _ _ Hrow)
    as (Hvol & _ & _ & Hlt).
  split; [exact Hrow|]. split; [exact Hvol|].
  apply Hlt. vm_compute. discriminate.
Defined.

Local Close Scope Q_scope.

(** ** Format specifications *)

Lemma all_chars_app (p : ascii -> bool) (a b : string) :
  PyStr.all_chars p (a ++ b) = PyStr.all_chars p a && PyStr.all_chars p b.
Proof.
  induction a as [|c a IH]; simpl; [reflexivity|].
  now rewrite IH, andb_assoc.
Qed.

Lemma all_chars_impl (p q : ascii -> bool) (s : string) :
  (forall c, p c = true -> q c = true) ->
  PyStr.all_chars p s = true -> PyStr.all_chars q s = true.
Proof.
  intros Hpq. induction s as [|c s IH]; simpl; [trivial|].
  rewrite !andb_true_iff. intros [Hc Hs]. auto.
Qed.

Lemma length_app (a b : string) :
  String.length (a ++ b) = String.length a + String.length b.
Proof. induction a as [|c a IH]; simpl; [reflexivity|now rewrite IH]. Qed.

Lemma app_empty_r (a : string) : (a ++ "")%string = a.
Proof. induction a as [|c a IH]; simpl; [reflexivity|now rewrite IH]. Qed.

Lemma digit_is_not (c : ascii) :
  PyStr.is_digit c = true ->
  Ascii.eqb c "," = false /\ Ascii.eqb c "." = false
  /\ Ascii.eqb c "%" = false /\ Ascii.eqb c "-" = false.
Proof.
  destruct c as [[] [] [] [] [] [] [] []]; simpl; intros H;
    try discriminate H; repeat split.
Qed.

Lemma unsigned_digit (c : ascii) (r : string) :
  PyStr.is_digit c = true -> Spec.unsigned (String c r) = String c r.
Proof.
  destruct c as [[] [] [] [] [] [] [] []]; simpl; intros H;
    try discriminate H; reflexivity.
Qed.

Lemma digit_char_digit (m : Z) :
  PyStr.is_digit (Fmt.digit_char (m mod 10)) = true.
Proof.
  unfold Fmt.digit_char.
  pose proof (Z.mod_pos_bound m 10 eq_refl) as Hb.
  assert (Hk : Z.to_nat (m mod 10) < 10) by lia.
  destruct (Z.to_nat (m mod 10)) as [|[|[|[|[|[|[|[|[|[|k]]]]]]]]]];
    try reflexivity; lia.
Qed.

Lemma all_chars_one (p : ascii -> bool) (c : ascii) :
  PyStr.all_chars p (String c EmptyString) = p c.
Proof. simpl. apply andb_true_r. Qed.

Lemma fixed_digits_digits (width : nat) :
  forall m, Spec.all_digits (Fmt.fixed_digits width m) = true.
Proof.
  unfold Spec.all_digits.
  induction width as [|w IH]; intros m; [reflexivity|].
  cbn [Fmt.fixed_digits].
  now rewrite all_chars_app, IH, all_chars_one, digit_char_digit.
Qed.

Lemma fixed_digits_length (width : nat) :
  forall m, String.length (Fmt.fixed_digits width m) = width.
Proof.
  induction width as [|w IH]; intros m; [reflexivity|].
  cbn [Fmt.fixed_digits]. rewrite length_app, IH.
  cbn [String.length]. lia.
Qed.

Lemma string_of_uint_digits (d : Decimal.uint) :
  Spec.all_digits (NilEmpty.string_of_uint d) = true.
Proof. induction d; simpl; trivial. Qed.

Lemma int_digits_digits (m : Z) : Spec.all_digits (Fmt.int_digits m) = true.
Proof.
  unfold Fmt.int_digits, NilZero.string_of_uint.
  destruct (N.to_uint (Z.to_N m)) eqn:E; try reflexivity;
    rewrite <- E; apply string_of_uint_digits.
Qed.

Lemma int_digits_not_empty (m : Z) : Fmt.int_digits m <> EmptyString.
Proof.
  unfold Fmt.int_digits, NilZero.string_of_uint.
  destruct (N.to_uint (Z.to_N m)); discriminate.
Qed.

Lemma group3_cons (d : ascii) (r : string) :
  Fmt.group3 (String d r)
  = String d (if (0 <? String.length r) && (String.length r mod 3 =? 0)
              then String "," (Fmt.group3 r) else Fmt.group3 r).
Proof. reflexivity. Qed.

Lemma group3_chars (ds : string) :
  Spec.all_digits ds = true ->
  PyStr.all_chars Spec.digit_or_comma (Fmt.group3 ds) = true.
Proof.
  unfold Spec.all_digits.
  induction ds as [|d r IH]; [reflexivity|].
  simpl PyStr.all_chars at 1. rewrite andb_true_iff. intros [Hd Hr].
  rewrite group3_cons.
  destruct ((0 <? String.length r) && (String.length r mod 3 =? 0)); simpl;
    unfold Spec.digit_or_comma at 1; rewrite Hd; simpl; auto.
Qed.

Lemma mod3_after_full (n : nat) :
  0 < n -> n mod 3 = 0 -> (n - 1) mod 3 + 1 = 3.
Proof.
  intros.
  pose proof (Nat.div_mod_eq n 3). pose proof (Nat.mod_upper_bound n 3).
  pose proof (Nat.div_mod_eq (n - 1) 3).
  pose proof (Nat.mod_upper_bound (n - 1) 3). lia.
Qed.

Lemma mod3_after_partial (n : nat) :
  n mod 3 <> 0 -> (n - 1) mod 3 + 2 = n mod 3 + 1.
Proof.
  intros.
  pose proof (Nat.div_mod_eq n 3). pose proof (Nat.mod_upper_bound n 3).
  pose proof (Nat.div_mod_eq (n - 1) 3).
  pose proof (Nat.mod_upper_bound (n - 1) 3). lia.
Qed.

(** The shape of a grouped digit string: a first group of
    [(n - 1) mod 3 + 1] digits, then groups of three. *)
Lemma group3_split (ds : string) :
  Spec.all_digits ds = true -> ds <> EmptyString ->
  exists first groups,
    PyStr.split "," (Fmt.group3 ds) = first :: groups
    /\ Spec.all_digits first = true
    /\ String.length first = (String.length ds - 1) mod 3 + 1
    /\ forallb (fun g => Spec.all_digits g && (String.length g =? 3)) groups = true.
Proof.
  unfold Spec.all_digits.
  induction ds as [|d r IH]; [congruence|].
  simpl PyStr.all_chars at 1. rewrite andb_true_iff. intros [Hd Hr] _.
  destruct (digit_is_not d Hd) as (Hcomma & _).
  rewrite group3_cons.
  destruct r as [|d' r'].
  - exists (String d EmptyString), []. simpl. rewrite Hcomma, Hd. auto.
  - destruct (IH Hr) as (f & gs & Hsplit & Hf & Hlen & Hgs); [discriminate|].
    remember (String d' r') as r eqn:Er.
    assert (Hpos : 0 < String.length r) by (subst r; simpl; lia).
    assert (Hposb : (0 <? String.length r) = true) by now apply Nat.ltb_lt.
    rewrite Hposb. cbn [andb].
    replace (String.length (String d r) - 1) with (String.length r)
      by (simpl; lia).
    replace (String.length r - 0) with (String.length r) in * by lia.
    destruct (Nat.eqb_spec (String.length r mod 3) 0) as [Hfull|Hpart].
    + exists (String d EmptyString), (f :: gs).
      simpl PyStr.split. rewrite Hcomma, Hsplit.
      repeat split.
      * simpl. now rewrite Hd.
      * cbn [String.length]. rewrite Hfull. reflexivity.
      * simpl. rewrite Hf, Hgs, Hlen.
        rewrite (mod3_after_full _ Hpos Hfull). reflexivity.
    + exists (String d f), gs.
      simpl PyStr.split. rewrite Hcomma, Hsplit.
      repeat split; trivial.
      * simpl. now rewrite Hd, Hf.
      * cbn [String.length]. rewrite Hlen.
        pose proof (mod3_after_partial _ Hpart). lia.
Qed.

Lemma thousands_group3 (ds : string) :
  Spec.all_digits ds = true -> ds <> EmptyString ->
  Spec.thousands_separated (Fmt.group3 ds) = true.
Proof.
  intros Hds Hne.
  destruct (group3_split ds Hds Hne) as (f & gs & Hsplit & Hf & Hlen & Hgs).
  unfold Spec.thousands_separated. rewrite Hsplit, Hf, Hgs.
  pose proof (Nat.mod_upper_bound (String.length ds - 1) 3).
  assert (H1 : (1 <=? String.length f) = true) by (apply Nat.leb_le; lia).
  assert (H3 : (String.length f <=? 3) = true) by (apply Nat.leb_le; lia).
  now rewrite H1, H3.
Qed.

(** The integer part of a formatted number, with or without the [','] . *)
Lemma int_part_shape (grouped : bool) (m : Z) :
  let ip := if grouped then Fmt.group3 (Fmt.int_digits m) else Fmt.int_digits m in
  (if grouped then Spec.thousands_separated else Spec.plain_digits) ip = true
  /\ PyStr.all_chars Spec.digit_or_comma ip = true
  /\ exists c r, ip = String c r /\ PyStr.is_digit c = true.
Proof.
  pose proof (int_digits_digits m) as Hd.
  pose proof (int_digits_not_empty m) as Hne.
  destruct (Fmt.int_digits m) as [|c r] eqn:E; [congruence|].
  assert (Hc : PyStr.is_digit c = true).
  { unfold Spec.all_digits in Hd. simpl in Hd.
    now apply andb_true_iff in Hd as [Hc _]. }
  destruct grouped; cbv zeta.
  - split; [now apply thousands_group3|].
    split; [now apply group3_chars|].
    rewrite group3_cons. eauto.
  - split; [|split].
    + unfold Spec.plain_digits. now rewrite Hd.
    + revert Hd. apply all_chars_impl. intros a Ha.
      unfold Spec.digit_or_comma. now rewrite Ha.
    + eauto.
Qed.

Lemma digit_or_comma_free_dot (s : string) :
  PyStr.all_chars Spec.digit_or_comma s = true -> PyStr.free "." s = true.
Proof.
  apply all_chars_impl. intros c. unfold Spec.digit_or_comma.
  rewrite orb_true_iff. intros [H|H].
  - destruct (digit_is_not c H) as (_ & Hdot & _). now rewrite Hdot.
  - apply Ascii.eqb_eq in H. now subst c.
Qed.

Lemma digits_free_dot (s : string) :
  Spec.all_digits s = true -> PyStr.free "." s = true.
Proof.
  apply all_chars_impl. intros c H.
  destruct (digit_is_not c H) as (_ & Hdot & _). now rewrite Hdot.
Qed.

Lemma format_f_unfold (grouped : bool) (prec : nat) (x : Q) :
  Fmt.format_f grouped prec x
  = ((if Qltb x 0 then "-" else "")
     ++ (if grouped
         then Fmt.group3 (Fmt.int_digits (Fmt.scaled prec x / 10 ^ Z.of_nat prec))
         else Fmt.int_digits (Fmt.scaled prec x / 10 ^ Z.of_nat prec))
     ++ (match prec with
         | O => ""
         | S _ => String "." (Fmt.fixed_digits prec (Fmt.scaled prec x))
         end))%string.
Proof. reflexivity. Qed.

(** Every text produced by a fixed-point format has the shape the format
    asks for: [prec] decimals, and the integer digits grouped by three
    exactly when [','] is given. *)
Lemma format_f_fixed (grouped : bool) (prec : nat) (x : Q) :
  Spec.fixed_decimal grouped prec (Fmt.format_f grouped prec x) = true.
Proof.
  rewrite format_f_unfold.
  set (m := Fmt.scaled prec x).
  destruct (int_part_shape grouped (m / 10 ^ Z.of_nat prec))
    as (Hok & Hchars & c & r & Hip & Hc).
  cbv zeta in Hok, Hchars, Hip.
  set (ip := if grouped
             then Fmt.group3 (Fmt.int_digits (m / 10 ^ Z.of_nat prec))
             else Fmt.int_digits (m / 10 ^ Z.of_nat prec)) in *.
  set (frac := match prec with
               | O => EmptyString
               | S _ => String "." (Fmt.fixed_digits prec m)
               end).
  assert (Hunsigned :
            Spec.unsigned ((if Qltb x 0 then "-" else "") ++ ip ++ frac)
            = (ip ++ frac)%string).
  { destruct (Qltb x 0); [reflexivity|].
    cbn [append]. rewrite Hip. cbn [append]. now apply unsigned_digit. }
  unfold Spec.fixed_decimal. rewrite Hunsigned.
  pose proof (digit_or_comma_free_dot ip Hchars) as Hfree.
  subst frac. destruct prec as [|prec'].
  - rewrite app_empty_r, (split_free_id "." ip Hfree).
    cbn [Nat.eqb andb]. exact Hok.
  - rewrite (split_app_free "." ip _ Hfree).
    rewrite (split_free_id "." _ (digits_free_dot _ (fixed_digits_digits _ m))).
    rewrite Hok, fixed_digits_digits, fixed_digits_length, Nat.eqb_refl.
    reflexivity.
Qed.

Lemma format_f_chars (grouped : bool) (prec : nat) (x : Q) :
  PyStr.all_chars Spec.number_char (Fmt.format_f grouped prec x) = true.
Proof.
  rewrite format_f_unfold.
  set (m := Fmt.scaled prec x).
  destruct (int_part_shape grouped (m / 10 ^ Z.of_nat prec)) as (_ & Hchars & _).
  cbv zeta in Hchars.
  rewrite !all_chars_app. repeat (apply andb_true_iff; split).
  - destruct (Qltb x 0); reflexivity.
  - revert Hchars. apply all_chars_impl. intros c.
    unfold Spec.digit_or_comma, Spec.number_char.
    rewrite !orb_true_iff. tauto.
  - destruct prec as [|prec']; [reflexivity|].
    cbn [PyStr.all_chars]. apply andb_true_iff. split; [reflexivity|].
    generalize (fixed_digits_digits (S prec') m).
    apply all_chars_impl. intros c Hc.
    unfold Spec.number_char. now rewrite Hc.
Qed.

Lemma dollars_2f_shape (x : Q) :
  Spec.currency_2dp_unseparated (Fmt.dollars_2f x) = true.
Proof. apply (format_f_fixed false 2 x). Qed.

Lemma dollars_comma_0f_shape (x : Q) :
  Spec.currency_0dp (Fmt.dollars_comma_0f x) = true.
Proof. apply (format_f_fixed true 0 x). Qed.

Lemma plain_2f_shape (x : Q) : Spec.ratio_2dp (Fmt.plain_2f x) = true.
Proof. apply (format_f_fixed false 2 x). Qed.

Lemma percent_2f_shape (x : Q) : Spec.percent_2dp (Fmt.percent_2f x) = true.
Proof.
  unfold Spec.percent_2dp, Fmt.percent_2f.
  rewrite split_app_free.
  - apply (format_f_fixed false 2 x).
  - generalize (format_f_chars false 2 x). apply all_chars_impl.
    intros c. unfold Spec.number_char. rewrite !orb_true_iff.
    intros [[[H|H]|H]|H].
    + destruct (digit_is_not c H) as (_ & _ & Hp & _). now rewrite Hp.
    + apply Ascii.eqb_eq in H. now subst c.
    + apply Ascii.eqb_eq in H. now subst c.
    + apply Ascii.eqb_eq in H. now subst c.
Qed.

(** ** What the views write *)

Local Open Scope Q_scope.

Lemma formatted_number {f : xnum -> string} {v : value} {s : string} :
  (x <- as_num v ;; Ok (f x)) = Ok s -> exists x, as_num v = Ok x /\ s = f x.
Proof.
  destruct (as_num v) as [x|]; simpl; [|discriminate].
  intros [= <-]. now exists x.
Qed.

Lemma as_num_finite (v : value) (x : xnum) :
  is_finite v = true -> as_num v = Ok x -> exists q, v = VNum q /\ x = Fin q.
Proof.
  destruct v as [|q|t|y]; simpl; try discriminate.
  intros _ [= <-]. now exists q.
Qed.

Lemma formatted_finite {f : xnum -> string} {v : value} {s : string} :
  (x <- as_num v ;; Ok (f x)) = Ok s -> is_finite v = true ->
  exists q, v = VNum q /\ s = f (Fin q).
Proof.
  intros H Hfin. apply formatted_number in H as (x & Hx & ->).
  destruct (as_num_finite v x Hfin Hx) as (q & Hv & ->). now exists q.
Qed.

Lemma times_100_nonfinite (x : nonfinite) : xmul (NonFin x) 100 = NonFin x.
Proof. destruct x; reflexivity. Qed.

Lemma change_pct_finite (inf : dict value) (hist : list bar) (pct : xnum) :
  is_finite (current_price inf hist) = true ->
  is_finite (previous_close inf) = true ->
  change_pct inf hist = Ok pct -> exists q, pct = Fin q.
Proof.
  unfold change_pct.
  destruct (current_price inf hist) as [|cp|?|?]; try discriminate.
  destruct (previous_close inf) as [|pc|?|?]; try discriminate.
  intros _ _. cbn [as_num bind xgtb].
  destruct (Qle_bool pc 0) eqn:Epc; cbn [negb].
  - intros [= <-]. now exists 0.
  - rewrite relative_change_finite; [intros [= <-]; eauto|].
    intros Hz. assert (Hle : Qle_bool pc 0 = true); [|congruence].
    apply Qle_bool_iff. rewrite Hz. apply Qle_refl.
Qed.

(** C8, as stated, fails: a current price of 1234.50 is written without a
    thousands separator; a market capitalisation, a revenue, a net income
    and a free cash flow are written without decimals; the total return of
    a window whose first close is zero is written ["inf%"], and a field
    that is NaN is written ["nan"]. *)
Lemma money_not_two_decimals_separated :
  card_value_of [("currentPrice", VNum (2469 # 2))] [] = Ok "$1234.50"%string
  /\ Spec.currency_2dp "$1234.50" = false
  /\ card_market_cap_of [("marketCap", VNum 1234567)] = Ok "$1,234,567"%string
  /\ fin_dollars [("totalRevenue", VNum 1234567)] "totalRevenue"
     = Ok "$1,234,567"%string
  /\ Spec.currency_2dp "$1,234,567" = false
  /\ option_map perf_total_return
       (perf_entry sample_sqrt "ZERO"
          [sample_bar 1 0; sample_bar 2 5; sample_bar 3 10])
     = Some "inf%"%string
  /\ Spec.percent_2dp "inf%" = false
  /\ fin_ratio [("debtToEquity", VNonFinite NaN)] "debtToEquity"
     = Ok "nan"%string
  /\ metric_cell [("beta", VNonFinite NaN)] "beta" = VStr "nan"
  /\ Spec.ratio_2dp "nan" = false.
Proof. repeat split; vm_compute; reflexivity. Qed.

(** C8, amended.  For finite numbers: the current price and the start and
    end prices of the performance table are a dollar sign and a two-decimal
    number with no thousands separator; market cap, revenue, net income and
    free cash flow are a dollar sign and a whole number, thousands-separated;
    every percentage is a two-decimal number followed by a percent sign
    (the total return when the first close is not zero); debt/equity,
    current ratio, volatility and the numeric cells of the comparison table
    other than market cap and dividend yield (the P/E among them) are plain
    two-decimal numbers.  A number that is NaN or an infinity is written
    [nan], [inf] or [-inf] in place of the digits, with the same dollar or
    percent sign, and so is the total return when the first close is
    zero. *)
Theorem display_formats (inf : dict value) (hist : list bar) (s : string) :
  (card_value_of inf hist = Ok s ->
   is_finite (current_price inf hist) = true ->
   Spec.currency_2dp_unseparated s = true)
  /\ (card_market_cap_of inf = Ok s ->
      is_finite (dict_get inf "marketCap" (VNum 0)) = true ->
      Spec.currency_0dp s = true)
  /\ (forall key, fin_dollars inf key = Ok s ->
      is_finite (dict_get inf key (VNum 0)) = true ->
      Spec.currency_0dp s = true)
  /\ (card_delta_of inf hist = Ok s ->
      is_finite (current_price inf hist) = true ->
      is_finite (previous_close inf) = true ->
      Spec.percent_2dp s = true)
  /\ (card_dividend_yield_of inf = Ok s ->
      is_finite (dict_get inf "dividendYield" (VNum 0)) = true ->
      Spec.percent_2dp s = true)
  /\ (forall key, fin_percent inf key = Ok s ->
      is_finite (dict_get inf key (VNum 0)) = true ->
      Spec.percent_2dp s = true)
  /\ (forall key, fin_ratio inf key = Ok s ->
      is_finite (dict_get inf key (VNum 0)) = true ->
      Spec.ratio_2dp s = true)
  /\ (forall metric q,
        dict_get inf metric (VStr "N/A") = VNum q ->
        exists t, metric_cell inf metric = VStr t
          /\ if String.eqb metric "marketCap" then Spec.currency_0dp t = true
             else if String.eqb metric "dividendYield" then Spec.percent_2dp t = true
             else Spec.ratio_2dp t = true)
  /\ (forall sqrt ticker row,
        perf_entry sqrt ticker hist = Some row ->
        Spec.currency_2dp_unseparated (perf_start_price row) = true
        /\ Spec.currency_2dp_unseparated (perf_current_price row) = true
        /\ Spec.ratio_2dp (perf_volatility row) = true
        /\ (~ start_price hist == 0 ->
            Spec.percent_2dp (perf_total_return row) = true)
        /\ (start_price hist == 0 ->
            exists x,
              perf_total_return row = (Fmt.nonfinite_text x ++ "%")%string))
  /\ (forall key x,
        dict_get inf key (VNum 0) = VNonFinite x ->
        fin_dollars inf key = Ok ("$" ++ Fmt.nonfinite_text x)%string
        /\ fin_percent inf key = Ok (Fmt.nonfinite_text x ++ "%")%string
        /\ fin_ratio inf key = Ok (Fmt.nonfinite_text x))
  /\ (forall metric x,
        dict_get inf metric (VStr "N/A") = VNonFinite x ->
        metric_cell inf metric
        = VStr (if String.eqb metric "marketCap"
                then "$" ++ Fmt.nonfinite_text x
                else if String.eqb metric "dividendYield"
                     then Fmt.nonfinite_text x ++ "%"
                     else Fmt.nonfinite_text x)%string).
Proof.
  repeat match goal with |- _ /\ _ => split end.
  - intros H Hfin. apply formatted_finite in H as (q & _ & ->); [|exact Hfin].
    apply dollars_2f_shape.
  - intros H Hfin. apply formatted_finite in H as (q & _ & ->); [|exact Hfin].
    apply dollars_comma_0f_shape.
  - intros key H Hfin.
    apply formatted_finite in H as (q & _ & ->); [|exact Hfin].
    apply dollars_comma_0f_shape.
  - unfold card_delta_of. intros H Hcp Hpc.
    destruct (change_pct inf hist) as [pct|] eqn:Epct; [|discriminate].
    destruct (change_pct_finite inf hist pct Hcp Hpc Epct) as (q & ->).
    cbn [bind] in H. injection H as <-. apply percent_2f_shape.
  - intros H Hfin.
    apply (formatted_finite (f := fun x => Fmt.percent_2f (xmul x 100))) in H
      as (q & _ & ->); [|exact Hfin].
    apply (percent_2f_shape (q * 100)).
  - intros key H Hfin.
    apply (formatted_finite (f := fun x => Fmt.percent_2f (xmul x 100))) in H
      as (q & _ & ->); [|exact Hfin].
    apply (percent_2f_shape (q * 100)).
  - intros key H Hfin.
    apply formatted_finite in H as (q & _ & ->); [|exact Hfin].
    apply plain_2f_shape.
  - intros metric q Hq. unfold metric_cell, format_metric. rewrite Hq.
    cbn [as_num].
    destruct (String.eqb metric "marketCap");
      [|destruct (String.eqb metric "dividendYield")];
      eexists; (split; [reflexivity|]).
    + apply dollars_comma_0f_shape.
    + apply (percent_2f_shape (q * 100)).
    + apply plain_2f_shape.
  - intros sqrt ticker row. unfold perf_entry.
    destruct (1 <? List.length hist)%nat; [|discriminate].
    intros [= <-]. cbn [perf_start_price perf_current_price
                         perf_total_return perf_volatility].
    split; [apply dollars_2f_shape|]. split; [apply dollars_2f_shape|].
    split; [apply plain_2f_shape|]. unfold total_return. split.
    + intros Hstart. rewrite (relative_change_finite _ _ Hstart).
      apply percent_2f_shape.
    + intros Hstart.
      destruct (zero_start_not_finite (end_price hist) _ Hstart) as (x & ->).
      now exists x.
  - intros key x Hx. unfold fin_dollars, fin_percent, fin_ratio.
    rewrite Hx. cbn [as_num bind]. rewrite times_100_nonfinite.
    repeat split.
  - intros metric x Hx. unfold metric_cell, format_metric. rewrite Hx.
    cbn [as_num]. rewrite times_100_nonfinite.
    destruct (String.eqb metric "marketCap");
      [|destruct (String.eqb metric "dividendYield")]; reflexivity.
Qed.

Lemma display_formats_witness :
  Spec.currency_2dp_unseparated "$1234.50" = true
  /\ Spec.currency_0dp "$1,234,567" = true
  /\ Spec.ratio_2dp "1.80" = true
  /\ fin_ratio [("debtToEquity", VNonFinite NaN)] "debtToEquity"
     = Ok "nan"%string.
Proof.
  split; [|split; [|split]].
  - destruct (display_formats [("currentPrice", VNum (2469 # 2))] []
                "$1234.50") as (H & _).
    apply H; reflexivity.
  - destruct (display_formats [("marketCap", VNum 1234567)] []
                "$1,234,567") as (_ & H & _).
    apply H; reflexivity.
  - destruct (display_formats [("debtToEquity", VNum (9 # 5))] [] "1.80")
      as (_ & _ & _ & _ & _ & _ & H & _).
    apply (H "debtToEquity"%string); reflexivity.
  - destruct (display_formats [("debtToEquity", VNonFinite NaN)] [] "")
      as (_ & _ & _ & _ & _ & _ & _ & _ & _ & H & _).
    apply (H "debtToEquity"%string NaN). reflexivity.
Defined.

Local Close Scope Q_scope.

(** ** Missing fields *)

Lemma dict_get_missing {V : Type} (d : dict V) (k : string) (default : V) :
  dict_lookup d k = None -> dict_get d k default = default.
Proof. unfold dict_get. now intros ->. Qed.

Lemma ticker_metrics_lookup (inf : dict value) (metric : string) :
  In metric comparison_metrics ->
  dict_lookup (ticker_metrics inf) metric = Some (metric_cell inf metric).
Proof.
  intros Hin. repeat (destruct Hin as [<-|Hin]; [reflexivity|]).
  destruct Hin.
Qed.

(** C9, as stated, fails: with no debt/equity, current ratio, revenue, net
    income, free cash flow or market cap in the quote info, the financials
    row and the card show zeros, although none of these values enters a
    calculation. *)
Lemma missing_field_shows_zero :
  financial_entry "ACME"
    (mkSnapshot "ACME" [("shortName", VStr "Acme")] [sample_bar 1 10%Q] [] [])
  = Ok (mkFinancialRow "ACME" "$0" "$0" "0.00%" "0.00%" "0.00%" "0.00" "0.00" "$0")
  /\ fin_ratio [("shortName", VStr "Acme")] "debtToEquity" <> Ok "N/A"%string
  /\ card_market_cap_of [("shortName", VStr "Acme")] = Ok "$0"%string.
Proof. repeat split; vm_compute; try reflexivity; discriminate. Qed.

(** C9, amended.  A field that is missing from the quote info is shown as
    ["N/A"] in the P/E, 52-week high, 52-week low and sector of the overview
    card and in every cell of the comparison table; in the market cap and
    dividend yield of the overview card and in every column of the
    financials table it takes the default 0 and is shown as a formatted
    zero; a missing previous close counts as 0 in the change. *)
Theorem missing_fields (inf : dict value) (key : string) :
  dict_lookup inf key = None ->
  (key = "trailingPE"%string -> card_pe_of inf = VStr "N/A")
  /\ (key = "fiftyTwoWeekHigh"%string -> card_52w_high_of inf = VStr "N/A")
  /\ (key = "fiftyTwoWeekLow"%string -> card_52w_low_of inf = VStr "N/A")
  /\ (key = "sector"%string -> card_sector_of inf = VStr "N/A")
  /\ (In key comparison_metrics ->
      dict_lookup (ticker_metrics inf) key = Some (VStr "N/A"))
  /\ (key = "marketCap"%string -> card_market_cap_of inf = Ok "$0"%string)
  /\ (key = "dividendYield"%string ->
      card_dividend_yield_of inf = Ok "0.00%"%string)
  /\ fin_dollars inf key = Ok "$0"%string
  /\ fin_percent inf key = Ok "0.00%"%string
  /\ fin_ratio inf key = Ok "0.00"%string
  /\ (key = "previousClose"%string -> previous_close inf = VNum 0%Q).
Proof.
  intros Hmiss.
  repeat match goal with |- _ /\ _ => split end;
    try (intros ->;
         cbv beta delta [card_pe_of card_52w_high_of card_52w_low_of
                         card_sector_of card_market_cap_of
                         card_dividend_yield_of previous_close];
         rewrite (dict_get_missing _ _ _ Hmiss); reflexivity).
  - intros Hin. rewrite (ticker_metrics_lookup inf key Hin).
    unfold metric_cell. now rewrite (dict_get_missing _ _ _ Hmiss).
  - unfold fin_dollars. now rewrite (dict_get_missing _ _ _ Hmiss).
  - unfold fin_percent. now rewrite (dict_get_missing _ _ _ Hmiss).
  - unfold fin_ratio. now rewrite (dict_get_missing _ _ _ Hmiss).
Qed.

Lemma missing_fields_witness :
  card_pe_of [("shortName", VStr "Acme")] = VStr "N/A"
  /\ fin_ratio [("shortName", VStr "Acme")] "debtToEquity" = Ok "0.00"%string.
Proof.
  split.
  - destruct (missing_fields [("shortName", VStr "Acme")] "trailingPE" eq_refl)
      as (Hpe & _).
    apply Hpe. reflexivity.
  - destruct (missing_fields [("shortName", VStr "Acme")] "debtToEquity" eq_refl)
      as (_ & _ & _ & _ & _ & _ & _ & _ & _ & Hratio & _).
    exact Hratio.
Defined.

(** * Further properties *)

(** ** Ticker input *)

Lemma rstrip_empty_iff (s : string) :
  PyStr.rstrip s = EmptyString <-> PyStr.all_chars PyStr.is_space s = true.
Proof.
  induction s as [|c r IH]; simpl; [tauto|].
  destruct (PyStr.rstrip r) as [|c' r'].
  - destruct (PyStr.is_space c); simpl.
    + split; [intros _; now apply IH|reflexivity].
    + split; discriminate.
  - split; [discriminate|].
    rewrite andb_true_iff. intros [_ H]. apply IH in H. discriminate.
Qed.

Lemma lstrip_spaces (s : string) :
  PyStr.all_chars PyStr.is_space (PyStr.lstrip s) = true <->
  PyStr.all_chars PyStr.is_space s = true.
Proof.
  induction s as [|c r IH]; simpl; [tauto|].
  destruct (PyStr.is_space c) eqn:E; simpl; [exact IH|].
  rewrite E. simpl. tauto.
Qed.

Lemma strip_empty_iff (s : string) :
  PyStr.truthy (PyStr.strip s) = false <->
  PyStr.all_chars PyStr.is_space s = true.
Proof.
  unfold PyStr.strip. rewrite <- lstrip_spaces, <- rstrip_empty_iff.
  destruct (PyStr.rstrip (PyStr.lstrip s)); simpl; split; congruence.
Qed.

Lemma split_all_chars (p : ascii -> bool) (sep : ascii) (s : string) :
  Forall (fun t => PyStr.all_chars p t = true) (PyStr.split sep s) <->
  PyStr.all_chars (fun c => p c || Ascii.eqb c sep) s = true.
Proof.
  induction s as [|c r IH]; simpl.
  - split; [reflexivity|]. intros _. now constructor.
  - destruct (Ascii.eqb c sep) eqn:Ec.
    + rewrite orb_true_r. simpl. rewrite <- IH.
      split; [now inversion 1|]. intros H. now constructor.
    + rewrite orb_false_r, andb_true_iff, <- IH.
      pose proof (split_not_nil sep r) as Hnil.
      destruct (PyStr.split sep r) as [|t ts]; [contradiction|].
      split.
      * inversion 1 as [|? ? Ht Hts]; subst. simpl in Ht.
        apply andb_true_iff in Ht as [Hc Ht]. split; [exact Hc|].
        now constructor.
      * intros [Hc H]. inversion H; subst. constructor; [|assumption].
        simpl. rewrite Hc. assumption.
Qed.

Lemma flat_map_nil_iff {A B : Type} (f : A -> list B) (l : list A) :
  flat_map f l = [] <-> Forall (fun a => f a = []) l.
Proof.
  induction l as [|a l IH]; simpl.
  - split; [constructor|reflexivity].
  - split.
    + intros H. apply app_eq_nil in H as [Ha Hl]. constructor; [exact Ha|].
      now apply IH.
    + inversion 1; subst. rewrite H2. simpl. now apply IH.
Qed.

(** X1.  The parsed list is empty, so that the "Analyze Stocks" button
    answers with its error instead of starting a run, exactly when the
    text holds nothing but white space and commas. *)
Theorem tickers_empty_iff (raw : string) :
  tickers raw = [] <-> PyStr.all_chars blank_char raw = true.
Proof.
  unfold tickers, blank_char.
  rewrite flat_map_nil_iff, <- (split_all_chars PyStr.is_space "," raw).
  assert (Hpt : forall t,
            (if PyStr.truthy (PyStr.strip t)
             then [PyStr.upper (PyStr.strip t)] else []) = []
            <-> PyStr.all_chars PyStr.is_space t = true).
  { intros t. rewrite <- strip_empty_iff.
    destruct (PyStr.truthy (PyStr.strip t)); split; congruence. }
  split; apply Forall_impl; intros t; apply Hpt.
Qed.

Lemma eqb_comma_upper_char (c : ascii) :
  Ascii.eqb (PyStr.upper_char c) "," = Ascii.eqb c ",".
Proof. destruct c as [[] [] [] [] [] [] [] []]; reflexivity. Qed.

Lemma upper_char_idem (c : ascii) :
  PyStr.upper_char (PyStr.upper_char c) = PyStr.upper_char c.
Proof. destruct c as [[] [] [] [] [] [] [] []]; reflexivity. Qed.

Lemma upper_idem (s : string) : PyStr.upper (PyStr.upper s) = PyStr.upper s.
Proof.
  induction s as [|c r IH]; simpl; [reflexivity|].
  now rewrite upper_char_idem, IH.
Qed.

Lemma comma_free_upper (s : string) :
  Spec.comma_free (PyStr.upper s) = Spec.comma_free s.
Proof.
  unfold Spec.comma_free, PyStr.free.
  induction s as [|c r IH]; simpl; [reflexivity|].
  now rewrite eqb_comma_upper_char, IH.
Qed.

Lemma free_lstrip (sep : ascii) (s : string) :
  PyStr.free sep s = true -> PyStr.free sep (PyStr.lstrip s) = true.
Proof.
  unfold PyStr.free. induction s as [|c r IH]; simpl; [trivial|].
  destruct (PyStr.is_space c); [|trivial].
  rewrite andb_true_iff. intros [_ H]. now apply IH.
Qed.

Lemma free_rstrip (sep : ascii) (s : string) :
  PyStr.free sep s = true -> PyStr.free sep (PyStr.rstrip s) = true.
Proof.
  unfold PyStr.free. induction s as [|c r IH]; simpl; [trivial|].
  rewrite andb_true_iff. intros [Hc Hr]. specialize (IH Hr).
  destruct (PyStr.rstrip r) as [|c' r'].
  - destruct (PyStr.is_space c); simpl; [reflexivity|now rewrite Hc].
  - cbn [PyStr.all_chars] in *. now rewrite Hc, IH.
Qed.

Lemma lstrip_id (s : string) :
  match PyStr.first_char s with
  | Some c => PyStr.is_space c = false
  | None => True
  end -> PyStr.lstrip s = s.
Proof. destruct s as [|c r]; simpl; [trivial|]. now intros ->. Qed.

Lemma rstrip_id (s : string) :
  match PyStr.last_char s with
  | Some c => PyStr.is_space c = false
  | None => True
  end -> PyStr.rstrip s = s.
Proof.
  induction s as [|c r IH]; [trivial|].
  destruct r as [|c' r'].
  - simpl. now intros ->.
  - intros H. change (PyStr.last_char (String c (String c' r')))
      with (PyStr.last_char (String c' r')) in H.
    specialize (IH H).
    change (PyStr.rstrip (String c (String c' r')))
      with (match PyStr.rstrip (String c' r') with
            | EmptyString => if PyStr.is_space c then EmptyString
                             else String c EmptyString
            | r0 => String c r0
            end).
    now rewrite IH.
Qed.

Lemma strip_trimmed (s : string) :
  Spec.trimmed s = true -> PyStr.strip s = s.
Proof.
  unfold Spec.trimmed, PyStr.strip. intros H.
  destruct (PyStr.first_char s) as [a|] eqn:Ea.
  - destruct (PyStr.last_char s) as [b|] eqn:Eb.
    + apply andb_true_iff in H as [Ha Hb].
      apply negb_true_iff in Ha, Hb.
      rewrite (lstrip_id s); [|now rewrite Ea].
      apply rstrip_id. now rewrite Eb.
    + destruct s as [|c r]; [discriminate|].
      exfalso. clear -Eb. revert c Eb.
      induction r as [|c' r' IH]; intros c Eb; [discriminate|].
      apply (IH c'). exact Eb.
  - destruct s; [reflexivity|discriminate].
Qed.

Lemma flat_map_singletons {A : Type} (f : A -> list A) (l : list A) :
  Forall (fun a => f a = [a]) l -> flat_map f l = l.
Proof.
  induction 1 as [|a l Ha _ IH]; simpl; [reflexivity|].
  now rewrite Ha, IH.
Qed.

(** X2.  Parsing is a normalisation: the parsed symbols, written again as
    comma-separated text, parse to themselves. *)
Theorem tickers_normal_form (raw : string) :
  tickers (PyStr.join "," (tickers raw)) = tickers raw.
Proof.
  assert (Hall : Forall (fun t => Spec.comma_free t = true
                                  /\ PyStr.strip t = t
                                  /\ PyStr.truthy t = true
                                  /\ PyStr.upper t = t) (tickers raw)).
  { unfold tickers. rewrite comprehension_stages.
    apply Forall_forall. intros t Ht.
    apply in_map_iff in Ht as (u & <- & Hu).
    apply filter_In in Hu as (Hu & Htr).
    apply in_map_iff in Hu as (w & <- & Hw).
    pose proof (split_free "," raw) as Hfree.
    rewrite Forall_forall in Hfree. specialize (Hfree w Hw).
    repeat split.
    - rewrite comma_free_upper. unfold Spec.comma_free, PyStr.strip.
      now apply free_rstrip, free_lstrip.
    - apply strip_trimmed, trimmed_upper, trimmed_strip.
    - destruct (PyStr.strip w); [discriminate|reflexivity].
    - apply upper_idem. }
  destruct (tickers raw) as [|t ts] eqn:E; [reflexivity|].
  unfold tickers at 1. rewrite split_join.
  - apply flat_map_singletons. revert Hall. apply Forall_impl.
    intros a (_ & Hs & Htr & Hu). now rewrite Hs, Htr, Hu.
  - discriminate.
  - revert Hall. apply Forall_impl. intros a (Hc & _). exact Hc.
Qed.

(** ** Period selector and submit button *)

(** X3.  The options offered by the period selector are exactly the keys
    of the period table: looking up a selected option never raises, and
    nothing else has a period code. *)
Theorem period_options_covered (label : string) :
  In label time_period_options <-> exists p, selected_period label = Ok p.
Proof.
  split.
  - intros Hin. repeat (destruct Hin as [<-|Hin]; [eexists; reflexivity|]).
    destruct Hin.
  - intros [p Hp]. unfold selected_period, period_map in Hp. simpl in Hp.
    unfold time_period_options.
    repeat match type of Hp with
           | context [String.eqb label ?k] =>
               destruct (String.eqb_spec label k) as [->|_];
               [simpl; tauto|]
           end.
    discriminate.
Qed.

(** X4.  A submission without symbols shows the error and leaves the page
    where it was, on the previous analysis or on the welcome screen; a
    submission with symbols shows nothing and makes the page run the
    analysis on exactly those symbols and that period; neither touches the
    access flag. *)
Theorem analyze_button_request (provider : nat -> string -> string -> response)
  (st : session) (raw period : string) :
  (tickers raw = [] ->
     analyze_button st (tickers raw) period
     = (st, [EvError "Please enter at least one stock ticker"]))
  /\ (tickers raw <> [] ->
      snd (analyze_button st (tickers raw) period) = []
      /\ main_content provider (fst (analyze_button st (tickers raw) period))
         = Some (run_analysis provider period (tickers raw)))
  /\ password_correct (fst (analyze_button st (tickers raw) period))
     = password_correct st.
Proof.
  split; [|split].
  - now intros ->.
  - intros Hne. destruct (tickers raw) as [|t ts]; [congruence|].
    split; reflexivity.
  - apply analyze_button_keeps_gate.
Qed.

Lemma analyze_button_request_witness :
  analyze_button fresh_session (tickers " , ") "1y"
  = (fresh_session, [EvError "Please enter at least one stock ticker"])
  /\ main_content sample_provider
       (fst (analyze_button fresh_session (tickers "msft") "1y"))
     = Some (run_analysis sample_provider "1y" ["MSFT"]).
Proof.
  split.
  - apply (analyze_button_request sample_provider fresh_session " , " "1y").
    reflexivity.
  - apply (analyze_button_request sample_provider fresh_session "msft" "1y").
    discriminate.
Defined.

(** ** Access gate over a session *)

Lemma access_gate_wrong (st : session) (pw : string) (login : bool) :
  password_correct st <> Some true ->
  login = false \/ pw <> CORRECT_PASSWORD ->
  exists st' ev,
    access_gate 1 st pw login = Some (false, st', ev)
    /\ password_correct st' = Some false
    /\ analyze st' = analyze st /\ st_tickers st' = st_tickers st
    /\ st_period st' = st_period st.
Proof.
  intros Hlocked Hwrong. unfold access_gate, check_password.
  destruct st as [[[|]|] a t p]; simpl in *; try congruence.
  - destruct login; [|eauto 10].
    destruct Hwrong as [|Hne]; [discriminate|].
    apply String.eqb_neq in Hne. rewrite Hne. eauto 10.
  - destruct login; [|eauto 10].
    destruct Hwrong as [|Hne]; [discriminate|].
    apply String.eqb_neq in Hne. rewrite Hne. eauto 10.
Qed.

Lemma access_gate_right (st : session) :
  password_correct st <> Some true ->
  exists st',
    access_gate 1 st CORRECT_PASSWORD true = Some (true, st', [])
    /\ password_correct st' = Some true.
Proof.
  intros Hlocked. unfold access_gate, check_password.
  destruct st as [[[|]|] a t p]; simpl in *; try congruence; eauto.
Qed.

(** X5.  However many attempts are made, and whatever is typed, a session
    stays locked until the secret itself is submitted with the Login
    button: every earlier answer is false, that answer and all later ones
    are true.  The secret typed without pressing Login does not unlock,
    and no number of failures locks the gate. *)
Theorem gate_unlocks_only_on_secret (st : session)
  (before after : list (string * bool)) :
  password_correct st <> Some true ->
  Forall (fun '(pw, login) => login = false \/ pw <> CORRECT_PASSWORD) before ->
  fst (gate_session st before) = map (fun _ => false) before
  /\ password_correct (snd (gate_session st before)) <> Some true
  /\ fst (gate_session st (before ++ (CORRECT_PASSWORD, true) :: after))
     = map (fun _ => false) before ++ true :: map (fun _ => true) after.
Proof.
  intros Hlocked Hwrong. revert st Hlocked.
  induction Hwrong as [|[pw login] rest Hhd _ IH]; intros st Hlocked.
  - split; [reflexivity|]. split; [exact Hlocked|].
    destruct (access_gate_right st Hlocked) as (st' & Hgate & Hst').
    cbn [app gate_session map]. rewrite Hgate.
    now rewrite (gate_session_unlocked st' after Hst').
  - destruct (access_gate_wrong st pw login Hlocked Hhd)
      as (st' & ev & Hgate & Hst' & _).
    assert (Hlocked' : password_correct st' <> Some true) by congruence.
    destruct (IH st' Hlocked') as (Hans & Hflag & Hthen).
    cbn [app gate_session map]. rewrite Hgate.
    destruct (gate_session st' rest) as [bs st2] eqn:E1.
    destruct (gate_session st' (rest ++ (CORRECT_PASSWORD, true) :: after))
      as [bs' st3] eqn:E2.
    simpl in *. subst. auto.
Qed.

Lemma gate_unlocks_only_on_secret_witness :
  fst (gate_session fresh_session
         [("guess", true); ("Invest2026", false); ("Invest2026", true);
          ("anything", true)])
  = [false; false; true; true].
Proof.
  apply (gate_unlocks_only_on_secret fresh_session
           [("guess", true); ("Invest2026", false)] [("anything", true)]).
  - simpl. discriminate.
  - constructor; [right; discriminate|].
    constructor; [left; reflexivity|constructor].
Defined.

(** ** What the fetch loop shows *)

Lemma fetch_symbol_event_kinds (ticker : string) (r : response) :
  filter is_sleep (snd (fetch_symbol ticker r)) = []
  /\ filter is_status (snd (fetch_symbol ticker r)) = []
  /\ progress_values (snd (fetch_symbol ticker r)) = []
  /\ count_events is_warning (snd (fetch_symbol ticker r))
     = if stored ticker r then 0 else 1.
Proof.
  unfold stored, fetch_symbol, count_events.
  destruct (r_info r) as [inf|]; [|now repeat split].
  destruct (r_history r) as [hist|]; [|now repeat split].
  destruct ((0 <? List.length hist) && dict_truthy inf); [|now repeat split].
  destruct (r_financials r); [|now repeat split].
  destruct (r_balance_sheet r); now repeat split.
Qed.

Lemma progress_values_app (a b : list event) :
  progress_values (a ++ b) = progress_values a ++ progress_values b.
Proof. apply flat_map_app. Qed.

Section FetcherEvents.
Variable provider : nat -> string -> string -> response.
Variable period : string.

Lemma fetch_loop_pacing (tks : list string) :
  forall (idx total : nat) (stock_data : dict snapshot),
  let ev := snd (fetch_loop provider period idx total tks stock_data) in
  filter is_sleep ev = repeat (EvSleep 1) (List.length tks)
  /\ count_events is_status ev = List.length tks
  /\ progress_values ev
     = map (fun k => (k, total)) (seq (S idx) (List.length tks))
  /\ count_events is_warning ev
     = List.length
         (filter (fun '(i, t) => negb (stored t (provider i t period)))
                 (enumerate_from idx tks)).
Proof.
  induction tks as [|t rest IH]; intros idx total sd; cbv zeta.
  - now repeat split.
  - cbn [fetch_loop enumerate_from filter].
    destruct (fetch_symbol_event_kinds t (provider idx t period))
      as (Hsl & Hst & Hpr & Hw).
    destruct (fetch_symbol t (provider idx t period)) as [got warned] eqn:Ef.
    match goal with
    | |- context [fetch_loop provider period (S idx) total rest ?d] =>
        specialize (IH (S idx) total d);
        destruct (fetch_loop provider period (S idx) total rest d)
          as [final later]
    end.
    cbv zeta in IH. destruct IH as (IHsl & IHst & IHpr & IHw).
    cbn [snd] in *. unfold count_events in *.
    repeat split.
    + unfold status_text. cbn [filter is_sleep].
      rewrite !filter_app, Hsl.
      cbn [filter is_sleep app List.length repeat]. now rewrite IHsl.
    + unfold status_text. cbn [filter is_status].
      rewrite !filter_app, Hst.
      cbn [filter is_status app List.length]. now rewrite IHst.
    + unfold status_text, progress_values in *. cbn [flat_map app].
      rewrite !flat_map_app, Hpr.
      cbn [flat_map app List.length seq map]. now rewrite <- IHpr.
    + unfold status_text. cbn [filter is_warning].
      rewrite !filter_app, !List.length_app, Hw.
      cbn [filter is_warning List.length]. rewrite IHw.
      destruct (stored t (provider idx t period)); simpl; lia.
Qed.

(** X6.  The loop paces every request: whatever the answers are, it shows
    one status line and sleeps one second once per requested symbol, and
    the progress values run through [1/n, 2/n, ..., n/n], each within the
    range a progress bar accepts. *)
Theorem fetch_all_pacing (tks : list string) :
  let ev := snd (fetch_all provider period tks) in
  let n := List.length tks in
  filter is_sleep ev = repeat (EvSleep 1) n
  /\ count_events is_status ev = n
  /\ progress_values ev = map (fun k => (k, n)) (seq 1 n)
  /\ Forall (fun '(k, total) => 1 <= k <= total /\ 0 < total)
            (progress_values ev).
Proof.
  cbv zeta.
  destruct (fetch_loop_pacing tks 0 (List.length tks) [])
    as (Hsl & Hst & Hpr & _).
  cbv zeta in Hsl, Hst, Hpr. fold (fetch_all provider period tks) in *.
  repeat split; trivial.
  rewrite Hpr. apply Forall_forall. intros [k total] Hin.
  apply in_map_iff in Hin as (j & [= <- <-] & Hj).
  apply in_seq in Hj. lia.
Qed.

(** X7.  The loop shows exactly one warning for each request that stores
    nothing and none for a request that stores an entry. *)
Theorem fetch_all_warnings (tks : list string) :
  count_events is_warning (snd (fetch_all provider period tks))
  = List.length
      (filter (fun '(i, t) => negb (stored t (provider i t period)))
              (enumerate_from 0 tks)).
Proof.
  destruct (fetch_loop_pacing tks 0 (List.length tks) []) as (_ & _ & _ & Hw).
  exact Hw.
Qed.

End FetcherEvents.

(** ** The mapping built by the fetch loop *)

Lemma dict_keys_set {V : Type} (d : dict V) (k : string) (v : V) :
  dict_keys (dict_set d k v)
  = if in_dec String.string_dec k (dict_keys d)
    then dict_keys d else dict_keys d ++ [k].
Proof.
  induction d as [|[k0 v0] rest IH]; simpl; [reflexivity|].
  destruct (String.eqb_spec k k0) as [->|Hk]; simpl.
  - destruct (String.string_dec k0 k0); [reflexivity|congruence].
  - rewrite IH. destruct (String.string_dec k0 k) as [Heq|Hne]; [congruence|].
    destruct (in_dec String.string_dec k (dict_keys rest)); reflexivity.
Qed.

Lemma dict_set_NoDup {V : Type} (d : dict V) (k : string) (v : V) :
  NoDup (dict_keys d) -> NoDup (dict_keys (dict_set d k v)).
Proof.
  intros Hnd. rewrite dict_keys_set.
  destruct (in_dec String.string_dec k (dict_keys d)) as [|Hnin]; [exact Hnd|].
  apply NoDup_app; [exact Hnd|repeat constructor; simpl; tauto|].
  intros a Ha [Heq|[]]. subst a. contradiction.
Qed.

Lemma dict_set_Forall {V : Type} (P : string -> V -> Prop)
  (d : dict V) (k : string) (v : V) :
  Forall (fun kv => P (fst kv) (snd kv)) d -> P k v ->
  Forall (fun kv => P (fst kv) (snd kv)) (dict_set d k v).
Proof.
  intros Hd Hkv. induction d as [|[k0 v0] rest IH]; simpl.
  - now repeat constructor.
  - inversion Hd; subst.
    destruct (String.eqb_spec k k0) as [->|_]; constructor; auto.
Qed.

Section FetcherMapping.
Variable provider : nat -> string -> string -> response.
Variable period : string.

Lemma fetch_loop_keeps (P : string -> snapshot -> Prop) (tks : list string) :
  (forall t r snap, fst (fetch_symbol t r) = Some snap -> P t snap) ->
  forall (idx total : nat) (stock_data : dict snapshot),
  NoDup (dict_keys stock_data) ->
  Forall (fun kv => P (fst kv) (snd kv)) stock_data ->
  let final := fst (fetch_loop provider period idx total tks stock_data) in
  NoDup (dict_keys final) /\ Forall (fun kv => P (fst kv) (snd kv)) final.
Proof.
  intros HP.
  induction tks as [|t rest IH]; intros idx total sd Hnd Hall; cbv zeta.
  - now split.
  - cbn [fetch_loop].
    pose proof (HP t (provider idx t period)) as Hnew.
    destruct (fetch_symbol t (provider idx t period)) as [got warned].
    match goal with
    | |- context [fetch_loop provider period (S idx) total rest ?d] =>
        specialize (IH (S idx) total d);
        destruct (fetch_loop provider period (S idx) total rest d)
          as [final later]
    end.
    cbv zeta in IH. cbn [fst] in *. apply IH.
    + destruct got; [now apply dict_set_NoDup|exact Hnd].
    + destruct got as [snap|]; [|exact Hall].
      apply dict_set_Forall; [exact Hall|]. now apply Hnew.
Qed.

(** When a symbol is requested several times, the entry kept is the answer
    to its last successful request. *)
Lemma fetch_loop_last (tks : list string) :
  forall (idx total : nat) (stock_data : dict snapshot) (k : string)
         (snap : snapshot),
  dict_lookup (fst (fetch_loop provider period idx total tks stock_data)) k
  = Some snap ->
  (dict_lookup stock_data k = Some snap
   /\ forall j, nth_error tks j = Some k ->
                stored k (provider (idx + j) k period) = false)
  \/ exists i, nth_error tks i = Some k
       /\ fst (fetch_symbol k (provider (idx + i) k period)) = Some snap
       /\ forall j, i < j -> nth_error tks j = Some k ->
                    stored k (provider (idx + j) k period) = false.
Proof.
  induction tks as [|t rest IH]; intros idx total sd k snap; cbn [fetch_loop].
  - intros H. left. split; [exact H|]. intros [|j]; discriminate.
  - destruct (fetch_symbol t (provider idx t period)) as [got warned] eqn:Ef.
    match goal with
    | |- context [fetch_loop provider period (S idx) total rest ?d] =>
        specialize (IH (S idx) total d k snap);
        destruct (fetch_loop provider period (S idx) total rest d)
          as [final later]
    end.
    cbn [fst] in *. intros Hk. specialize (IH Hk).
    destruct IH as [(Hin & Hrest)|(i & Hi & Hs & Hafter)].
    + assert (Hshift : forall j, nth_error rest j = Some k ->
                stored k (provider (idx + S j) k period) = false).
      { intros j Hj. rewrite Nat.add_succ_r. now apply Hrest. }
      destruct got as [s0|].
      * rewrite dict_lookup_set in Hin.
        destruct (String.eqb_spec k t) as [->|Hne].
        -- right. exists 0. split; [reflexivity|].
           rewrite Nat.add_0_r, Ef. split; [exact Hin|].
           intros [|j] Hlt Hj; [lia|]. now apply Hshift.
        -- left. split; [exact Hin|].
           intros [|j] Hj; [simpl in Hj; congruence|]. now apply Hshift.
      * left. split; [exact Hin|].
        intros [|j] Hj; [|now apply Hshift].
        simpl in Hj. injection Hj as ->.
        unfold stored. now rewrite Nat.add_0_r, Ef.
    + right. exists (S i). split; [exact Hi|].
      rewrite Nat.add_succ_r. split; [exact Hs|].
      intros [|j] Hlt Hj; [lia|].
      rewrite Nat.add_succ_r. apply Hafter; [lia|exact Hj].
Qed.

(** X8.  The mapping has one entry per symbol even when a symbol is
    requested more than once; each entry carries its own key as ticker; and
    the entry kept for a repeated symbol is the answer to its last
    successful request. *)
Theorem fetch_all_last_success (tks : list string) :
  NoDup (dict_keys (fst (fetch_all provider period tks)))
  /\ List.length (fst (fetch_all provider period tks)) <= List.length tks
  /\ forall k snap,
       dict_lookup (fst (fetch_all provider period tks)) k = Some snap ->
       ticker_obj snap = k
       /\ exists i, nth_error tks i = Some k
            /\ fst (fetch_symbol k (provider i k period)) = Some snap
            /\ forall j, i < j -> nth_error tks j = Some k ->
                         stored k (provider j k period) = false.
Proof.
  destruct (fetch_loop_keeps (fun _ _ => True) tks
              (fun _ _ _ _ => I) 0 (List.length tks) [])
    as [Hnd _]; [constructor|constructor|].
  fold (fetch_all provider period tks) in Hnd.
  split; [exact Hnd|]. split.
  - replace (List.length (fst (fetch_all provider period tks)))
      with (List.length (dict_keys (fst (fetch_all provider period tks))))
      by apply length_map.
    apply NoDup_incl_length; [exact Hnd|].
    intros k Hk. apply dict_lookup_keys in Hk.
    destruct (dict_lookup (fst (fetch_all provider period tks)) k)
      as [snap|] eqn:E; [|congruence].
    apply (fetch_loop_last tks 0 (List.length tks) []) in E
      as [(Hnil & _)|(i & Hi & _)]; [discriminate|].
    eapply nth_error_In, Hi.
  - intros k snap Hk.
    apply (fetch_loop_last tks 0 (List.length tks) []) in Hk
      as [(Hnil & _)|(i & Hi & Hs & Hafter)]; [discriminate|].
    simpl in Hs, Hafter. split.
    + apply fetch_symbol_stores in Hs as (_ & Heq & _).
      rewrite Heq. reflexivity.
    + exists i. auto.
Qed.

Lemma price_chart_keys (stock_data : dict snapshot) :
  Forall (fun kv => Spec.complete (snd kv)) stock_data ->
  price_chart stock_data
  = map (fun '(ticker, snap) =>
           (ticker, map bar_date (history snap), closes (history snap)))
        stock_data.
Proof.
  induction 1 as [|[t snap] rest [Hh _] _ IH]; [reflexivity|].
  simpl in *. rewrite IH.
  destruct (history snap); [congruence|reflexivity].
Qed.

(** X9.  After the fetch loop the price chart has one line for every
    stored symbol, in the order of the mapping, none is skipped; and for
    every stored symbol whose quote info has no current price, or a zero
    one, the current price is the last close of its history. *)
Theorem fetched_symbols_are_charted (tks : list string) :
  let stock_data := fst (fetch_all provider period tks) in
  map (fun line => fst (fst line)) (price_chart stock_data)
  = dict_keys stock_data
  /\ Forall (fun '(ticker, snap) =>
               py_eq_zero (dict_get (info snap) "currentPrice" (VNum 0%Q)) = true ->
               current_price (info snap) (history snap)
               = VNum (end_price (history snap)))
            stock_data.
Proof.
  cbv zeta.
  destruct (fetch_loop_keeps (fun _ snap => Spec.complete snap) tks) with
    (idx := 0) (total := List.length tks) (stock_data := @nil (string * snapshot))
    as [_ Hall]; [|constructor|constructor|].
  { intros t r snap H. now apply fetch_symbol_stores in H. }
  fold (fetch_all provider period tks) in Hall.
  split.
  - rewrite (price_chart_keys _ Hall). rewrite map_map.
    apply map_ext. now intros [t snap].
  - revert Hall. apply Forall_impl. intros [t snap] [Hh _] Hzero.
    simpl in Hh. unfold current_price, end_price. rewrite Hzero.
    destruct (history snap) as [|b hist]; [congruence|reflexivity].
Qed.

End FetcherMapping.

(** ** Overview cards *)

Lemma for_items_ok {A B : Type} (f : string -> A -> result B)
  (d : dict A) (bs : list B) :
  for_items f d = Ok bs <->
  Forall2 (fun kv b => f (fst kv) (snd kv) = Ok b) d bs.
Proof.
  revert bs. induction d as [|[k a] rest IH]; intros bs; simpl.
  - split; [intros [= <-]; constructor|now inversion 1].
  - destruct (f k a) as [b|] eqn:Ef; simpl.
    + destruct (for_items f rest) as [bs'|] eqn:Er; simpl.
      * split.
        -- intros [= <-]. constructor; [exact Ef|]. now apply IH.
        -- inversion 1 as [|? b0 ? bs0 Hb Hrest]; subst. simpl in Hb.
           apply IH in Hrest. congruence.
      * split; [discriminate|].
        inversion 1 as [|? b0 ? bs0 Hb Hrest]; subst.
        apply IH in Hrest. discriminate.
    + split; [discriminate|].
      inversion 1 as [|? b0 ? bs0 Hb Hrest]; subst. simpl in Hb. congruence.
Qed.

Lemma overview_from_cycle (stock_data : dict snapshot) :
  forall ncols idx,
  (forall j, j < List.length stock_data -> (idx + j) mod 3 < ncols) ->
  overview_from ncols idx stock_data
  = cards <- overview stock_data ;;
    Ok (combine (map (fun j => j mod 3) (seq idx (List.length stock_data))) cards).
Proof.
  unfold overview.
  induction stock_data as [|[t snap] rest IH]; intros ncols idx Hcols;
    [reflexivity|].
  cbn [overview_from for_items List.length seq map].
  assert (H0 : idx mod 3 < ncols).
  { specialize (Hcols 0). rewrite Nat.add_0_r in Hcols. apply Hcols.
    simpl. lia. }
  apply Nat.ltb_lt in H0. rewrite H0.
  destruct (overview_card t snap) as [c|]; [|reflexivity].
  cbn [bind]. rewrite (IH ncols (S idx)).
  - destruct (for_items overview_card rest); reflexivity.
  - intros j Hj. replace (S idx + j) with (idx + S j) by lia.
    apply Hcols. simpl. lia.
Qed.

(** X10.  Placing the cards never indexes a column that was not created:
    the layout fails only when building a card fails, and otherwise the
    cards go to the columns 0, 1, 2, 0, 1, 2, ... in the order of the
    mapping, every index below the number of columns. *)
Theorem overview_layout_columns (stock_data : dict snapshot) :
  overview_layout stock_data
  = (cards <- overview stock_data ;;
     Ok (combine (map (fun j => j mod 3) (seq 0 (List.length stock_data)))
                 cards))
  /\ forall placed, overview_layout stock_data = Ok placed ->
       List.length placed = List.length stock_data
       /\ Forall (fun p => fst p < overview_columns stock_data) placed.
Proof.
  assert (Hcols : forall j, j < List.length stock_data ->
                            (0 + j) mod 3 < overview_columns stock_data).
  { intros j Hj. unfold overview_columns. rewrite Nat.add_0_l.
    pose proof (Nat.mod_upper_bound j 3).
    pose proof (Nat.Div0.mod_le j 3). lia. }
  pose proof (overview_from_cycle stock_data _ 0 Hcols) as Hlay.
  fold (overview_layout stock_data) in Hlay.
  split; [exact Hlay|].
  intros placed Hplaced. rewrite Hlay in Hplaced.
  destruct (overview stock_data) as [cards|] eqn:Ecards; [|discriminate].
  simpl in Hplaced. injection Hplaced as <-.
  apply for_items_ok, Forall2_length in Ecards.
  split.
  - rewrite length_combine, length_map, length_seq. lia.
  - apply Forall_forall. intros [col c] Hin.
    apply in_combine_l, in_map_iff in Hin as (j & <- & Hj).
    apply in_seq in Hj. simpl. apply (Hcols j). lia.
Qed.

Lemma overview_layout_columns_witness :
  exists placed,
    overview_layout (fst (fetch_all sample_provider "1y"
                            ["AAPL"; "MSFT"; "AAPL"; "NOPE"])) = Ok placed
    /\ List.length placed = 2
    /\ Forall (fun p => fst p < 2) placed.
Proof.
  pose (stock_data := fst (fetch_all sample_provider "1y"
                             ["AAPL"; "MSFT"; "AAPL"; "NOPE"])).
  pose (placed := match overview_layout stock_data with
                  | Ok p => p
                  | Raise => []
                  end).
  assert (E : overview_layout stock_data = Ok placed)
    by (vm_compute; reflexivity).
  exists placed. split; [exact E|].
  exact (proj2 (overview_layout_columns stock_data) placed E).
Defined.

Lemma as_num_spec (v : value) :
  match as_num v with
  | Ok _ => is_number v = true
  | Raise => is_number v = false
  end.
Proof. destruct v; reflexivity. Qed.

(** X11.  A card is built exactly when the current price (after its
    fallback), the previous close, the market cap and the dividend yield
    are numbers, an absent field counting as the number 0, and the short
    name, when there is one, is a string (the label Streamlit accepts).  A
    numeric field that is present but [None] or a string makes the card
    raise, and so does a short name that is not a string; the P/E, the
    52-week high and low and the sector never do. *)
Theorem overview_card_builds (ticker : string) (snap : snapshot) :
  ((exists c, overview_card ticker snap = Ok c) <->
   is_number (current_price (info snap) (history snap))
   && is_number (previous_close (info snap))
   && is_number (dict_get (info snap) "marketCap" (VNum 0%Q))
   && is_number (dict_get (info snap) "dividendYield" (VNum 0%Q))
   && is_string (dict_get (info snap) "shortName" (VStr ticker)) = true)
  /\ forall c, overview_card ticker snap = Ok c ->
       card_subheader c = ticker
       /\ card_label c = dict_get (info snap) "shortName" (VStr ticker)
       /\ card_value_of (info snap) (history snap) = Ok (card_value c)
       /\ card_delta_of (info snap) (history snap) = Ok (card_delta c)
       /\ card_market_cap_of (info snap) = Ok (card_market_cap c)
       /\ card_pe c = card_pe_of (info snap)
       /\ card_dividend_yield_of (info snap) = Ok (card_dividend_yield c)
       /\ card_52w_high c = card_52w_high_of (info snap)
       /\ card_52w_low c = card_52w_low_of (info snap)
       /\ card_sector c = card_sector_of (info snap).
Proof.
  split; [|intros c; unfold overview_card, metric_label;
           destruct (card_value_of (info snap) (history snap)); [|discriminate];
           destruct (card_delta_of (info snap) (history snap)); [|discriminate];
           destruct (dict_get (info snap) "shortName" (VStr ticker));
             try discriminate;
           destruct (card_market_cap_of (info snap)); [|discriminate];
           destruct (card_dividend_yield_of (info snap)); [|discriminate];
           cbn [bind]; intros [= <-]; repeat split].
  unfold overview_card, card_value_of, card_delta_of, change_pct,
    card_market_cap_of, card_dividend_yield_of, metric_label.
  pose proof (as_num_spec (current_price (info snap) (history snap))) as Hcp.
  pose proof (as_num_spec (previous_close (info snap))) as Hpc.
  pose proof (as_num_spec (dict_get (info snap) "marketCap" (VNum 0%Q))) as Hmc.
  pose proof (as_num_spec (dict_get (info snap) "dividendYield" (VNum 0%Q)))
    as Hdy.
  destruct (as_num (current_price (info snap) (history snap))) as [cp|];
    rewrite Hcp; cbn [bind andb];
    [|split; [intros [c Hc]; discriminate Hc|discriminate]].
  destruct (as_num (previous_close (info snap))) as [pc|];
    rewrite Hpc; cbn [bind andb];
    [|split; [intros [c Hc]; discriminate Hc|discriminate]].
  destruct (dict_get (info snap) "shortName" (VStr ticker)) as [|?|label|?];
    cbn [bind is_string];
    try (rewrite !andb_false_r;
         split; [intros [c Hc]; discriminate Hc|discriminate]).
  rewrite andb_true_r.
  destruct (as_num (dict_get (info snap) "marketCap" (VNum 0%Q))) as [mc|];
    rewrite Hmc; cbn [bind andb];
    [|split; [intros [c Hc]; discriminate Hc|discriminate]].
  destruct (as_num (dict_get (info snap) "dividendYield" (VNum 0%Q))) as [dy|];
    rewrite Hdy; cbn [bind andb];
    [|split; [intros [c Hc]; discriminate Hc|discriminate]].
  split; [reflexivity|]. intros _. eexists. reflexivity.
Qed.

(** ** Financials table *)

Lemma financial_entry_builds (ticker : string) (snap : snapshot) :
  (exists row, financial_entry ticker snap = Ok row)
  <-> forallb (fun key => is_number (dict_get (info snap) key (VNum 0%Q)))
              financial_keys = true.
Proof.
  unfold financial_entry, fin_dollars, fin_percent, fin_ratio, financial_keys.
  cbn [forallb].
  repeat match goal with
         | |- context [as_num (dict_get (info snap) ?k (VNum 0%Q))] =>
             let H := fresh "H" in
             pose proof (as_num_spec (dict_get (info snap) k (VNum 0%Q))) as H;
             destruct (as_num (dict_get (info snap) k (VNum 0%Q)));
             rewrite H; cbn [bind andb];
             [|split; [intros (row & Hrow); discriminate Hrow|discriminate]]
         end.
  split; [reflexivity|]. intros _. eexists. reflexivity.
Qed.

Lemma financial_entry_ticker (ticker : string) (snap : snapshot)
  (row : financial_row) :
  financial_entry ticker snap = Ok row -> fin_ticker row = ticker.
Proof.
  unfold financial_entry. intros Hrow.
  repeat match type of Hrow with
         | context [fin_dollars ?i ?k] => destruct (fin_dollars i k); simpl in Hrow
         | context [fin_percent ?i ?k] => destruct (fin_percent i k); simpl in Hrow
         | context [fin_ratio ?i ?k] => destruct (fin_ratio i k); simpl in Hrow
         end; try discriminate.
  now injection Hrow as <-.
Qed.

(** X12.  The financials table is built exactly when, for every stored
    symbol, each of the eight fields it reads is a number or is absent; it
    then has one row per symbol, in the order of the mapping, each under
    its own ticker.  A single field that is present but not a number
    makes the whole table raise. *)
Theorem financial_data_builds (stock_data : dict snapshot) :
  ((exists rows, financial_data stock_data = Ok rows) <->
   Forall (fun kv =>
             forallb (fun key => is_number (dict_get (info (snd kv)) key (VNum 0%Q)))
                     financial_keys = true) stock_data)
  /\ forall rows, financial_data stock_data = Ok rows ->
       map fin_ticker rows = dict_keys stock_data.
Proof.
  unfold financial_data. split.
  - split.
    + intros [rows Hrows]. apply for_items_ok in Hrows.
      induction Hrows as [|[t snap] row rest rows Hrow _ IH]; constructor;
        [|exact IH].
      simpl in *. apply (financial_entry_builds t snap). now exists row.
    + induction 1 as [|[t snap] rest Hhd _ [rows IH]]; [now exists []|].
      simpl in Hhd. apply (financial_entry_builds t snap) in Hhd as [row Hrow].
      exists (row :: rows). simpl in *. now rewrite Hrow, IH.
  - intros rows Hrows. apply for_items_ok in Hrows.
    induction Hrows as [|[t snap] row rest rows Hrow _ IH]; [reflexivity|].
    simpl in *. f_equal; [|exact IH].
    now apply financial_entry_ticker in Hrow.
Qed.

(** ** Comparison table *)

Lemma dict_set_fresh {V : Type} (d : dict V) (k : string) (v : V) :
  ~ In k (dict_keys d) -> dict_set d k v = d ++ [(k, v)].
Proof.
  induction d as [|[k0 v0] rest IH]; simpl; [reflexivity|].
  intros Hnin. destruct (String.eqb_spec k k0) as [->|_]; [tauto|].
  rewrite IH; [reflexivity|tauto].
Qed.

Lemma fold_set_fresh {A V : Type} (g : A -> V) (items : list (string * A)) :
  forall acc : dict V,
  NoDup (dict_keys acc ++ dict_keys items) ->
  fold_left (fun cd '(k, a) => dict_set cd k (g a)) items acc
  = acc ++ map (fun '(k, a) => (k, g a)) items.
Proof.
  induction items as [|[k a] rest IH]; intros acc Hnd; simpl.
  - now rewrite app_nil_r.
  - assert (Hk : ~ In k (dict_keys acc)).
    { simpl in Hnd. apply NoDup_remove_2 in Hnd.
      intros Hin. apply Hnd, in_or_app. now left. }
    rewrite (dict_set_fresh acc k (g a) Hk), IH.
    + now rewrite <- app_assoc.
    + unfold dict_keys in *. rewrite map_app, <- app_assoc. exact Hnd.
Qed.

(** X13.  With one entry per symbol in the mapping, the comparison table
    has one row per symbol in the same order; every row has exactly the ten
    metrics in their fixed order, as many as the column labels assigned to
    the table; a cell whose field is a string or [None] holds that value
    unchanged. *)
Theorem comparison_table_shape (stock_data : dict snapshot) :
  NoDup (dict_keys stock_data) ->
  comparison_data stock_data
  = map (fun '(ticker, snap) => (ticker, ticker_metrics (info snap))) stock_data
  /\ dict_keys (comparison_data stock_data) = dict_keys stock_data
  /\ Forall (fun row =>
              dict_keys (snd row) = comparison_metrics
              /\ List.length (snd row) = List.length comparison_columns)
           (comparison_data stock_data)
  /\ forall ticker snap metric v,
       In (ticker, snap) stock_data -> In metric comparison_metrics ->
       dict_lookup (info snap) metric = Some v -> is_number v = false ->
       dict_lookup (ticker_metrics (info snap)) metric = Some v.
Proof.
  intros Hnd.
  assert (Hcd : comparison_data stock_data
                = map (fun '(ticker, snap) => (ticker, ticker_metrics (info snap)))
                      stock_data).
  { unfold comparison_data.
    now rewrite (fold_set_fresh (fun snap => ticker_metrics (info snap))
                   stock_data [] Hnd). }
  split; [exact Hcd|]. rewrite Hcd. split; [|split].
  - unfold dict_keys. rewrite map_map. apply map_ext. now intros [t snap].
  - apply Forall_forall. intros [t tm] Hin.
    apply in_map_iff in Hin as ([t' snap] & [= <- <-] & _).
    split; reflexivity.
  - intros ticker snap metric v _ Hmetric Hv Hnum.
    rewrite (ticker_metrics_lookup (info snap) metric Hmetric).
    unfold metric_cell, dict_get. rewrite Hv.
    destruct v; [reflexivity|discriminate|reflexivity|discriminate].
Qed.

Lemma comparison_table_shape_witness :
  dict_keys (comparison_data
               (fst (fetch_all sample_provider "1y" ["MSFT"; "AAPL"; "MSFT"])))
  = ["MSFT"; "AAPL"].
Proof.
  destruct (comparison_table_shape
              (fst (fetch_all sample_provider "1y" ["MSFT"; "AAPL"; "MSFT"])))
    as (_ & Hkeys & _).
  - vm_compute. repeat constructor; simpl; intuition discriminate.
  - rewrite Hkeys. reflexivity.
Defined.

Lemma pe_in_chart_string (s : string) :
  pe_in_chart (VStr s) = if PyStr.truthy s then Raise else Ok false.
Proof. destruct s; reflexivity. Qed.

Lemma pe_in_chart_cases (pe : value) :
  (exists keep, pe_in_chart pe = Ok keep
                /\ forall c s, pe <> VStr (String c s))
  \/ (pe_in_chart pe = Raise /\ exists c s, pe = VStr (String c s)).
Proof.
  destruct pe as [|q|s|x].
  - left. exists false. split; [reflexivity|discriminate].
  - left. rewrite pe_in_chart_number. eexists. split; [reflexivity|discriminate].
  - rewrite pe_in_chart_string. destruct s as [|c s]; simpl.
    + left. exists false. split; [reflexivity|discriminate].
    + right. split; [reflexivity|]. now exists c, s.
  - left. rewrite pe_in_chart_nonfinite. exists false.
    split; [reflexivity|discriminate].
Qed.

(** X14.  Building the P/E chart raises exactly when the trailing PE of
    some stored symbol is a non-empty string; an empty string, [None] or a
    missing field only leaves the symbol out. *)
Theorem pe_data_raises (stock_data : dict snapshot) :
  pe_data stock_data = Raise <->
  exists ticker snap c s,
    In (ticker, snap) stock_data
    /\ dict_get (info snap) "trailingPE" VNone = VStr (String c s).
Proof.
  induction stock_data as [|[t snap] rest IH]; simpl.
  - split; [discriminate|]. intros (? & ? & ? & ? & [] & _).
  - destruct (pe_in_chart_cases (dict_get (info snap) "trailingPE" VNone))
      as [(keep & -> & Hnot)|(-> & c & s & Hpe)]; cbn [bind].
    + destruct (pe_data rest) as [rows|]; simpl.
      * split; [discriminate|].
        intros (t' & snap' & c & s & [H|H] & Hpe).
        -- injection H as <- <-. now apply Hnot in Hpe.
        -- destruct IH as [_ IH]. discriminate IH. eauto 6.
      * split; [|reflexivity]. intros _.
        destruct IH as [IH _].
        destruct (IH eq_refl) as (t' & snap' & c & s & Hin & Hpe).
        exists t', snap', c, s. auto.
    + split; [|reflexivity]. intros _. exists t, snap, c, s. auto.
Qed.

(** ** Performance figures *)

Local Open Scope Q_scope.

Lemma total_return_factor (s e : Q) :
  0 < s ->
  exists k, 0 < k /\ (e - s) / s * 100 == (e - s) * k.
Proof.
  intros Hs. exists (/ s * 100). split.
  - apply Qmult_lt_0_compat; [now apply Qinv_lt_0_compat|reflexivity].
  - unfold Qdiv. ring.
Qed.

(** X15.  For a positive first close, the total return is a finite
    number; it is positive exactly when the last close is above the first,
    zero exactly when they are equal, and negative exactly when it is
    below. *)
Theorem total_return_sign (first lst : bar) (mid : list bar) :
  0 < bar_close first ->
  exists tr : Q,
    total_return (first :: mid ++ [lst]) = Fin tr
    /\ (0 < tr <-> bar_close first < bar_close lst)
    /\ (tr == 0 <-> bar_close lst == bar_close first)
    /\ (tr < 0 <-> bar_close lst < bar_close first).
Proof.
  intros Hs. unfold total_return.
  destruct (closes_ends first lst mid) as [-> ->].
  exists ((bar_close lst - bar_close first) / bar_close first * 100).
  split.
  - apply relative_change_finite. intros Hz. rewrite Hz in Hs.
    discriminate Hs.
  - destruct (total_return_factor (bar_close first) (bar_close lst) Hs)
      as (k & Hk & ->).
    set (d := bar_close lst - bar_close first).
    assert (Hd : bar_close lst == bar_close first + d) by (subst d; ring).
    repeat split; intros H; try nra; rewrite Hd in *; try nra.
Qed.

Lemma total_return_sign_witness :
  exists tr : Q,
    total_return [sample_bar 1 100; sample_bar 2 90; sample_bar 3 150] = Fin tr
    /\ 0 < tr.
Proof.
  destruct (total_return_sign (sample_bar 1 100) (sample_bar 3 150)
              [sample_bar 2 90]) as (tr & Htr & Hpos & _); [reflexivity|].
  exists tr. split; [exact Htr|]. apply Hpos. reflexivity.
Defined.

Lemma Qsum_constant (c : Q) (xs : list Q) :
  Forall (fun x => x == c) xs ->
  Qsum xs == inject_Z (Z.of_nat (List.length xs)) * c.
Proof.
  induction 1 as [|x xs Hx _ IH].
  - simpl. ring.
  - cbn [Qsum fold_right List.length]. fold (Qsum xs).
    rewrite IH, Hx, Nat2Z.inj_succ. unfold Z.succ.
    rewrite inject_Z_plus. ring.
Qed.

Lemma Qsum_zero_terms (f : Q -> Q) (xs : list Q) :
  Forall (fun x => f x == 0) xs -> Qsum (map f xs) == 0.
Proof.
  induction 1 as [|x xs Hx _ IH]; [reflexivity|].
  cbn [map Qsum fold_right]. fold (Qsum (map f xs)). rewrite Hx, IH. ring.
Qed.

Lemma mean_constant (c : Q) (xs : list Q) :
  xs <> [] -> Forall (fun x => x == c) xs -> mean xs == c.
Proof.
  intros Hne Hall. unfold mean. rewrite (Qsum_constant c xs Hall).
  assert (Hn : ~ inject_Z (Z.of_nat (List.length xs)) == 0).
  { change 0 with (inject_Z 0). rewrite inject_Z_injective.
    destruct xs; [congruence|]. simpl. lia. }
  field. exact Hn.
Qed.

(** X16.  For a history of two points or more the quantity under the root
    of the volatility is never negative, and it is zero when all the closes
    are equal. *)
Theorem variance_sign (xs : list Q) :
  (2 <= List.length xs)%nat ->
  0 <= variance 1 xs
  /\ forall c, Forall (fun x => x == c) xs -> variance 1 xs == 0.
Proof.
  intros Hlen. unfold variance.
  assert (Hdiv : 0 < inject_Z (Z.of_nat (List.length xs) - Z.of_nat 1)).
  { change 0 with (inject_Z 0). rewrite <- Zlt_Qlt. lia. }
  split.
  - unfold Qdiv. apply Qmult_le_0_compat; [apply sum_sq_dev_nonneg|].
    apply Qlt_le_weak, Qinv_lt_0_compat, Hdiv.
  - intros c Hall.
    assert (Hne : xs <> []) by (destruct xs; [simpl in Hlen; lia|discriminate]).
    pose proof (mean_constant c xs Hne Hall) as Hmean.
    assert (Hss : sum_sq_dev xs == 0).
    { unfold sum_sq_dev.
      apply (Qsum_zero_terms (fun x => (x - mean xs) * (x - mean xs))).
      revert Hall. apply Forall_impl. intros x Hx. rewrite Hx, Hmean. ring. }
    rewrite Hss. unfold Qdiv. ring.
Qed.

Lemma variance_sign_witness :
  0 <= variance 1 [100; 102; 104] /\ variance 1 [7; 7; 7] == 0.
Proof.
  split.
  - apply (variance_sign [100; 102; 104]). simpl. lia.
  - apply (variance_sign [7; 7; 7]) with (c := 7); [simpl; lia|].
    repeat constructor.
Defined.

Local Close Scope Q_scope.

(** ** Sample runs *)

Lemma fetch_all_last_success_witness :
  ticker_obj (mkSnapshot "AAPL" (sample_info (57 # 2))
                [sample_bar 1 100%Q; sample_bar 2 110%Q; sample_bar 3 150%Q]
                [] [])
  = "AAPL".
Proof.
  apply (fetch_all_last_success sample_provider "1y" ["AAPL"; "MSFT"; "AAPL"]).
  reflexivity.
Defined.

Lemma financial_data_builds_witness :
  exists rows,
    financial_data (fst (fetch_all sample_provider "1y" ["MSFT"; "AAPL"]))
    = Ok rows
    /\ map fin_ticker rows = ["MSFT"; "AAPL"].
Proof.
  pose (stock_data := fst (fetch_all sample_provider "1y" ["MSFT"; "AAPL"])).
  pose (rows := match financial_data stock_data with
                | Ok r => r
                | Raise => []
                end).
  assert (E : financial_data stock_data = Ok rows) by (vm_compute; reflexivity).
  exists rows. split; [exact E|].
  exact (proj2 (financial_data_builds stock_data) rows E).
Defined.

Lemma overview_card_builds_witness :
  exists c,
    overview_card "AAPL"
      (mkSnapshot "AAPL" (sample_info 20%Q) [sample_bar 1 100%Q] [] []) = Ok c
    /\ card_label c = VStr "Sample Inc."
    /\ card_pe c = VNum 20%Q.
Proof.
  destruct (overview_card_builds "AAPL"
              (mkSnapshot "AAPL" (sample_info 20%Q) [sample_bar 1 100%Q] [] []))
    as [Hbuilds Hfields].
  destruct (proj2 Hbuilds eq_refl) as [c Hc].
  exists c. split; [exact Hc|].
  destruct (Hfields c Hc) as (_ & Hlabel & _ & _ & _ & Hpe & _).
  split; [exact Hlabel|exact Hpe].
Defined.
